(** * dvcvapourize: the batch orchestrator and the rewrap planner

    A shallow embedding of [vs_pipeline.py] and [rewrap.py].

    Conventions of the model.
    - Python [str] values are [string]s of ASCII characters; [os.path] is
      [posixpath].
    - The outside world (file system, external tools, child processes) is
      an abstract state [W] threaded through every function that touches
      it; what a tool answers is a parameter of the development, so every
      theorem holds for all tools.
    - A Python call that may raise returns a [res]; [try/except] becomes a
      match on it.
    - Modification times and clock readings are integers (any totally
      ordered unit); Python floats that carry a fraction are exact
      rationals, binary64 rounding is not modelled.
    - Logging and console output are left out, as they do not feed back
      into any value computed here; the diagnostics [rewrap.py] writes to
      [sys.stderr] are kept as events. *)

From Stdlib Require Import Ascii String ZArith QArith Qround Lia Sorted.
From stdpp Require Import gmap strings list pretty sorting.

Local Open Scope string_scope.
Local Open Scope list_scope.
Local Open Scope Z_scope.

(** ** Results of calls that may raise *)

Inductive res (A : Type) : Type :=
  | Ret (a : A)
  | Raise.
Arguments Ret {A} a.
Arguments Raise {A}.

#[global] Instance res_ret : MRet res := @Ret.

#[global] Instance res_bind : MBind res := λ A B k r,
  match r with
  | Ret a => k a
  | Raise => Raise
  end.

(** ** Python string operations *)

Module PyStr.

Definition code (c : ascii) : N := N_of_ascii c.

(** [str.isspace] on one ASCII character; also the class [\s]. *)
Definition is_space (c : ascii) : bool :=
  let n := code c in
  (((9 <=? n) && (n <=? 13)) || ((28 <=? n) && (n <=? 32)))%N.

(** The class [\d], restricted to ASCII. *)
Definition is_digit (c : ascii) : bool :=
  let n := code c in ((48 <=? n) && (n <=? 57))%N.

Definition digit_value (c : ascii) : Z := Z.of_N (code c) - 48.

Definition lower_char (c : ascii) : ascii :=
  let n := code c in
  if ((65 <=? n) && (n <=? 90))%N then ascii_of_N (n + 32) else c.

Fixpoint lower (s : string) : string :=
  match s with
  | EmptyString => EmptyString
  | String c r => String (lower_char c) (lower r)
  end.

Definition eqb_char (a b : ascii) : bool := Ascii.eqb a b.
#[global] Arguments eqb_char : simpl never.

(** [s.startswith(p)], returning what follows the prefix. *)
Fixpoint strip_prefix (p s : string) : option string :=
  match p, s with
  | EmptyString, _ => Some s
  | String a p', String b s' =>
      if eqb_char a b then strip_prefix p' s' else None
  | String _ _, EmptyString => None
  end.

Definition startswith (s p : string) : bool :=
  match strip_prefix p s with Some _ => true | None => false end.

(** [sub in s] *)
Fixpoint contains (sub s : string) : bool :=
  startswith s sub ||
  match s with
  | EmptyString => false
  | String _ r => contains sub r
  end.

Fixpoint has_char (c : ascii) (s : string) : bool :=
  match s with
  | EmptyString => false
  | String a r => eqb_char a c || has_char c r
  end.

Definition is_empty (s : string) : bool :=
  match s with EmptyString => true | _ => false end.

Fixpoint lstrip (s : string) : string :=
  match s with
  | EmptyString => EmptyString
  | String c r => if is_space c then lstrip r else s
  end.

Fixpoint rstrip (s : string) : string :=
  match s with
  | EmptyString => EmptyString
  | String c r =>
      let r' := rstrip r in
      if is_space c && is_empty r' then EmptyString else String c r'
  end.

Definition strip (s : string) : string := rstrip (lstrip s).

Fixpoint all_digits (s : string) : bool :=
  match s with
  | EmptyString => true
  | String c r => is_digit c && all_digits r
  end.

(** [s.isdigit()] *)
Definition isdigit (s : string) : bool := negb (is_empty s) && all_digits s.

(** [s.split(sep)] for a one-character separator; never empty. *)
Fixpoint split (sep : ascii) (s : string) : list string :=
  match s with
  | EmptyString => [EmptyString]
  | String c r =>
      if eqb_char c sep then EmptyString :: split sep r
      else match split sep r with
           | x :: xs => String c x :: xs
           | [] => [String c EmptyString]
           end
  end.

(** [s.split(sep, 1)] when [sep in s]: the parts around the first [sep]. *)
Fixpoint split_first (sep : ascii) (s : string) : option (string * string) :=
  match s with
  | EmptyString => None
  | String c r =>
      if eqb_char c sep then Some (EmptyString, r)
      else match split_first sep r with
           | Some (k, v) => Some (String c k, v)
           | None => None
           end
  end.

(** [sep.join(parts)] *)
Fixpoint join (sep : string) (parts : list string) : string :=
  match parts with
  | [] => EmptyString
  | [x] => x
  | x :: xs => x +:+ sep +:+ join sep xs
  end.

(** Value of a run of decimal digits, most significant first. *)
Fixpoint digits_value_from (acc : Z) (s : string) : Z :=
  match s with
  | EmptyString => acc
  | String c r => digits_value_from (10 * acc + digit_value c) r
  end.

Definition digits_value (s : string) : Z := digits_value_from 0 s.

(** The digits of a [digitpart]: digits with single underscores between
    them, as [int] and [float] accept; [None] when malformed. *)
Fixpoint digitpart_from (prev_digit : bool) (s : string) : option string :=
  match s with
  | EmptyString => if prev_digit then Some EmptyString else None
  | String c r =>
      if is_digit c then String c <$> digitpart_from true r
      else if eqb_char c "_" && prev_digit then digitpart_from false r
      else None
  end.

Definition digitpart (s : string) : option string :=
  match s with
  | EmptyString => None
  | _ => digitpart_from false s
  end.

Definition split_sign (s : string) : bool * string :=
  match s with
  | String "-" r => (true, r)
  | String "+" r => (false, r)
  | _ => (false, s)
  end.

(** [int(s)] in base ten: [Raise] stands for [ValueError].  The
    interpreter's limit on the number of digits is not modelled. *)
Definition int (s : string) : res Z :=
  let '(neg, body) := split_sign (strip s) in
  match digitpart body with
  | Some ds => Ret (if neg then - digits_value ds else digits_value ds)
  | None => Raise
  end.

End PyStr.

(** ** [os.path] (posixpath) *)

Module PosixPath.
Import PyStr.

(** [os.path.basename]: what follows the last slash. *)
Fixpoint basename (p : string) : string :=
  match p with
  | EmptyString => EmptyString
  | String _ r => if has_char "/" p then basename r else p
  end.

(** The part of [p] up to and including the last slash. *)
Fixpoint head (p : string) : string :=
  match p with
  | EmptyString => EmptyString
  | String c r => if has_char "/" p then String c (head r) else EmptyString
  end.

(** The parts of a component around its last dot (the dot stays with
    the second part). *)
Fixpoint split_last_dot (s : string) : option (string * string) :=
  match s with
  | EmptyString => None
  | String c r =>
      match split_last_dot r with
      | Some (a, b) => Some (String c a, b)
      | None => if eqb_char c "." then Some (EmptyString, s) else None
      end
  end.

Fixpoint all_dots (s : string) : bool :=
  match s with
  | EmptyString => true
  | String c r => eqb_char c "." && all_dots r
  end.

(** [genericpath._splitext] on one component: leading dots do not start
    an extension. *)
Definition splitext_component (s : string) : string * string :=
  match split_last_dot s with
  | Some (a, b) => if all_dots a then (s, EmptyString) else (a, b)
  | None => (s, EmptyString)
  end.

(** [os.path.splitext] *)
Definition splitext (p : string) : string * string :=
  let '(root, ext) := splitext_component (basename p) in
  (head p +:+ root, ext).

(** [p.endswith('/')] *)
Fixpoint endswith_sep (p : string) : bool :=
  match p with
  | EmptyString => false
  | String c EmptyString => eqb_char c "/"
  | String _ r => endswith_sep r
  end.

(** [os.path.join(a, b)] *)
Definition join (a b : string) : string :=
  if startswith b "/" then b
  else if is_empty a || endswith_sep a then a +:+ b
  else a +:+ "/" +:+ b.

End PosixPath.

(** ** The outside world *)

(** What [os.stat] tells about a file. *)
Record file_stat := FileStat { st_mtime : Z; st_size : Z }.

(** A command line: an argument vector, or one string handed to the shell. *)
Inductive command :=
  | Argv (args : list string)
  | Shell (line : string).

(** [subprocess.CompletedProcess] with captured text output. *)
Record completed_process := Completed {
  returncode : Z;
  stdout : string;
  stderr : string
}.

(** How the supervised pipeline ended: [ProcessManager.start] gave no
    process, the process exited with a code, or waiting for it raised. *)
Inductive launched :=
  | NotStarted
  | Exited (rc : Z)
  | WaitRaised.

(** The interface to the operating system.  [run] is [subprocess.run]
    without [check]: it raises when the program cannot be spawned, times
    out or its output cannot be decoded. *)
Class World (W : Type) := {
  stat : W → string → option file_stat;
  run : command → W → res completed_process * W;
  launch : string → W → launched * W
}.

(** Messages written to [sys.stderr] by [rewrap.py], by what they carry. *)
Inductive diag :=
  | SourceNotFound (path : string)
  | ProbeFailed (tool_stderr : string)
  | CouldNotAnalyze
  | OutputTooSmall (size : Z)
  | OutputNotCreated
  | EncodingFailed (tool_stderr : string)
  | UnexpectedError.

(** What a call leaves behind besides its value. *)
Inductive event :=
  | Spawn (c : command)
  | Launch (line : string)
  | Diag (d : diag).

Section Effects.
Context {W : Type} `{World W}.

(** A computation on the world: a value or an exception, the events it
    caused, and the world after it. *)
Definition M (A : Type) : Type := W → res A * list event * W.

Definition ret {A} (a : A) : M A := λ w, (Ret a, [], w).

Definition throw {A} : M A := λ w, (Raise, [], w).

Definition bind {A B} (m : M A) (k : A → M B) : M B := λ w,
  match m w with
  | (Ret a, t, w1) => let '(r, t', w2) := k a w1 in (r, t ++ t', w2)
  | (Raise, t, w1) => (Raise, t, w1)
  end.

(** [try: m  except Exception: h] *)
Definition catch {A} (m : M A) (h : M A) : M A := λ w,
  match m w with
  | (Ret a, t, w1) => (Ret a, t, w1)
  | (Raise, t, w1) => let '(r, t', w2) := h w1 in (r, t ++ t', w2)
  end.

Definition lift {A} (r : res A) : M A := λ w, (r, [], w).

Definition spawn (c : command) : M completed_process := λ w,
  let '(r, w') := run c w in (r, [Spawn c], w').

Definition start_and_wait (line : string) : M launched := λ w,
  let '(l, w') := launch line w in (Ret l, [Launch line], w').

Definition say (d : diag) : M unit := λ w, (Ret tt, [Diag d], w).

(** [os.path.exists], [os.path.getmtime], [os.path.getsize] *)
Definition path_exists (p : string) : M bool := λ w,
  (Ret (bool_decide (is_Some (stat w p))), [], w).

Definition getmtime (p : string) : M Z := λ w,
  (match stat w p with Some s => Ret (st_mtime s) | None => Raise end, [], w).

Definition getsize (p : string) : M Z := λ w,
  (match stat w p with Some s => Ret (st_size s) | None => Raise end, [], w).

End Effects.

Notation "'let*' x ':=' m 'in' k" := (bind m (λ x, k))
  (at level 10, x name, m at level 100, k at level 200).
Notation "'let*' ' p ':=' m 'in' k" := (bind m (λ x, match x with p => k end))
  (at level 10, p pattern, m at level 100, k at level 200).
Notation "m ';;;' k" := (bind m (λ _, k))
  (at level 100, k at level 200, right associativity).

(** ** Module-level configuration of [vs_pipeline.py] *)

Record Config := {
  BATCH_MODE : bool;
  SKIP_EXISTING : bool;
  TEST_MODE : bool;
  TEST_FRAME_COUNT : Z;
  RICH_AVAILABLE : bool
}.

(** ** [vs_pipeline.py]: output naming and the skip rule *)

Definition get_output_filename (input_file output_dir : string) : string :=
  let base_name := (PosixPath.splitext (PosixPath.basename input_file)).1 in
  PosixPath.join output_dir (base_name +:+ ".mov").

Section SkipRule.
Context {W : Type} `{World W}.

Definition should_skip_file (cfg : Config) (input_file output_file : string)
  : M bool :=
  if negb (SKIP_EXISTING cfg) then ret false
  else
    let* present := path_exists output_file in
    if present then
      let* input_time := getmtime input_file in
      let* output_time := getmtime output_file in
      if output_time >? input_time then
        let* output_size := getsize output_file in
        if output_size >? 1000000 then ret true else ret false
      else ret false
    else ret false.

End SkipRule.

(** ** [rewrap.py] *)

(** The [key=value] lines of a prober's output, as a dictionary; a later
    line with the same key replaces an earlier one. *)
Definition parse_key_values (text : string) : gmap string string :=
  foldl (λ info line,
           if PyStr.has_char "=" line then
             match PyStr.split_first "=" line with
             | Some (key, value) => <[key := value]> info
             | None => info
             end
           else info)
        ∅ (PyStr.split "010" (PyStr.strip text)).

(** Truth value of [video_info]: [None] and the empty dictionary are false. *)
Definition has_info (video_info : option (gmap string string)) : bool :=
  match video_info with
  | None => false
  | Some info => negb (bool_decide (info = ∅))
  end.

(** [d.get(key, '')] *)
Definition get_str (info : gmap string string) (key : string) : string :=
  default EmptyString (info !! key).

Definition needs_rewrap_formats : list string :=
  ["avi"; "matroska"; "mp4"; "mpeg"; "mpegts"; "mxf"].

Definition needs_rewrap_extensions : list string :=
  [".avi"; ".mkv"; ".mp4"; ".m4v"; ".mpg"; ".mpeg";
   ".ts"; ".mts"; ".m2ts"; ".mxf"; ".dv"; ".hdv"].

Definition needs_rewrapping (source_file : string)
    (video_info : option (gmap string string)) : bool :=
  match video_info with
  | None => true
  | Some info =>
      if negb (has_info video_info) then true
      else
        let format_name := PyStr.lower (get_str info "format_name") in
        let codec_name := PyStr.lower (get_str info "codec_name") in
        let file_ext := PyStr.lower (PosixPath.splitext source_file).2 in
        let format_needs_rewrap :=
          existsb (λ fmt, PyStr.contains fmt format_name) needs_rewrap_formats in
        let extension_needs_rewrap :=
          bool_decide (file_ext ∈ needs_rewrap_extensions) in
        if PyStr.contains "mov" format_name
           || PyStr.contains "quicktime" format_name then
          if PyStr.contains "prores" codec_name then true else true
        else if format_needs_rewrap || extension_needs_rewrap then true
        else true
  end.

Definition interlaced_indicators : list string := ["tt"; "bb"; "tb"; "bt"].

(** [int(video_info.get('height', 0))] *)
Definition get_height (info : gmap string string) : res Z :=
  match info !! "height" with
  | Some h => PyStr.int h
  | None => Ret 0
  end.

Definition detect_interlacing (info : gmap string string) : res (bool * bool) :=
  let field_order := PyStr.lower (get_str info "field_order") in
  match get_height info with
  | Raise => Raise
  | Ret height =>
      let is_interlaced :=
        existsb (λ indicator, PyStr.contains indicator field_order)
                interlaced_indicators in
      let is_interlaced :=
        if negb is_interlaced then
          if bool_decide (height ∈ [480; 576; 1080]) then true
          else is_interlaced
        else is_interlaced in
      let top_field_first :=
        if PyStr.contains "bb" field_order || PyStr.contains "bt" field_order
        then false
        else if height =? 480 then false
        else true in
      Ret (is_interlaced, top_field_first)
  end.

(** [detect_interlacing(video_info) if video_info else (True, True)] *)
Definition interlace_decision (video_info : option (gmap string string))
  : res (bool * bool) :=
  match video_info with
  | Some info =>
      if has_info video_info then detect_interlacing info else Ret (true, true)
  | None => Ret (true, true)
  end.

Definition probe_command (source_file : string) : command :=
  Argv ["ffprobe"; "-v"; "error"; "-select_streams"; "v:0";
        "-show_entries";
        "stream=codec_name,pix_fmt,width,height,field_order,r_frame_rate";
        "-show_entries"; "format=format_name";
        "-of"; "default=noprint_wrappers=1"; source_file].

(** The intermediate artifact of the rewrap stage. *)
Definition rewrap_output_file (source_file output_directory : string) : string :=
  let base_name := PosixPath.basename source_file in
  let base_name_no_ext := (PosixPath.splitext base_name).1 in
  PosixPath.join output_directory (base_name_no_ext +:+ "_prores.mov").

Definition rewrap_command (source_file output_file : string)
    (is_interlaced top_field_first : bool) : list string :=
  ["ffmpeg"; "-i"; source_file; "-c:v"; "prores_ks"; "-profile:v"; "3";
   "-pix_fmt"; "yuv422p10le"]
  ++ (if is_interlaced
      then ["-flags"; "+ildct+ilme"; "-top"; if top_field_first then "1" else "0"]
      else [])
  ++ ["-color_primaries"; "12"; "-color_trc"; "11"; "-colorspace"; "12";
      "-color_range"; "tv"; "-c:a"; "pcm_s24le"; "-y"; output_file].

Section Rewrap.
Context {W : Type} `{World W}.

(** Only a non-zero exit ([CalledProcessError]) is handled; any other
    exception of the call leaves the function. *)
Definition get_video_info (source_file : string)
  : M (option (gmap string string)) :=
  let* result := spawn (probe_command source_file) in
  if returncode result =? 0 then ret (Some (parse_key_values (stdout result)))
  else say (ProbeFailed (stderr result)) ;;; ret None.

Definition rewrap_to_prores (source_file output_directory : string)
  : M (option string) :=
  let* present := path_exists source_file in
  if negb present then say (SourceNotFound source_file) ;;; ret None
  else
    let* video_info := get_video_info source_file in
    (if has_info video_info then ret tt else say CouldNotAnalyze) ;;;
    if negb (needs_rewrapping source_file video_info) then ret (Some source_file)
    else
      let output_file := rewrap_output_file source_file output_directory in
      let* '(is_interlaced, top_field_first) :=
        lift (interlace_decision video_info) in
      let command :=
        rewrap_command source_file output_file is_interlaced top_field_first in
      catch
        (let* result := spawn (Argv command) in
         if returncode result =? 0 then
           let* created := path_exists output_file in
           if created then
             let* output_size := getsize output_file in
             if output_size >? 1000000 then ret (Some output_file)
             else say (OutputTooSmall output_size) ;;; ret None
           else say OutputNotCreated ;;; ret None
         else say (EncodingFailed (stderr result)) ;;; ret None)
        (say UnexpectedError ;;; ret None).

End Rewrap.

(** ** Python floats, as far as the pipeline uses them *)

Module PyFloat.
Import PyStr.

(** A finite value is an exact rational; [NonFinite] stands for
    infinities and NaN. *)
Inductive t :=
  | Finite (q : Q)
  | NonFinite.

Definition pow10 (e : Z) : Q :=
  if 0 <=? e then inject_Z (10 ^ e) else (1 # Z.to_pos (10 ^ (- e)))%Q.

(** [digitpart? "." digitpart?] with at least one of the two, or a
    bare [digitpart]. *)
Definition mantissa (s : string) : option Q :=
  match split_first "." s with
  | Some (ip, fp) =>
      let part x := if is_empty x then Some EmptyString else digitpart x in
      if is_empty ip && is_empty fp then None
      else
        i ← part ip; f ← part fp;
        Some (inject_Z (digits_value (i +:+ f))
              * pow10 (- Z.of_nat (String.length f)))%Q
  | None => (λ ds, inject_Z (digits_value ds)) <$> digitpart s
  end.

Definition exponent (s : string) : option Z :=
  let '(neg, body) := split_sign s in
  (λ ds, if neg then - digits_value ds else digits_value ds) <$> digitpart body.

(** [float(s)]: [Raise] stands for [ValueError]. *)
Definition float (s : string) : res t :=
  let '(neg, body) := split_sign (lower (strip s)) in
  if bool_decide (body ∈ ["inf"; "infinity"; "nan"]) then Ret NonFinite
  else
    let value :=
      match split_first "e" body with
      | Some (m, e) => q ← mantissa m; z ← exponent e; Some (q * pow10 z)%Q
      | None => mantissa body
      end in
    match value with
    | Some q => Ret (Finite (if neg then - q else q)%Q)
    | None => Raise
    end.

Definition mul (a b : t) : t :=
  match a, b with
  | Finite x, Finite y => Finite (x * y)%Q
  | _, _ => NonFinite
  end.

(** Truncation towards zero. *)
Definition trunc (q : Q) : Z := Z.quot (Qnum q) (Zpos (Qden q)).

(** [int(x)]: raises on infinities and NaN. *)
Definition to_int (x : t) : res Z :=
  match x with
  | Finite q => Ret (trunc q)
  | NonFinite => Raise
  end.

(** [num / den] on integers: [Raise] stands for [ZeroDivisionError]. *)
Definition true_div (num den : Z) : res t :=
  if den =? 0 then Raise else Ret (Finite (inject_Z num / inject_Z den)%Q).

End PyFloat.

(** ** [vs_pipeline.py]: probing, command construction, verification *)

Definition dquote : string := String "034" EmptyString.

Definition quoted (s : string) : string := dquote +:+ s +:+ dquote.

Definition nb_frames_command (input_file : string) : command :=
  Shell ("ffprobe -v error -select_streams v:0 "
         +:+ "-show_entries stream=nb_frames "
         +:+ "-of default=noprint_wrappers=1:nokey=1 " +:+ quoted input_file).

Definition duration_command (input_file : string) : command :=
  Shell ("ffprobe -v error "
         +:+ "-show_entries format=duration "
         +:+ "-of default=noprint_wrappers=1:nokey=1 " +:+ quoted input_file).

Definition frame_rate_command (input_file : string) : command :=
  Shell ("ffprobe -v error -select_streams v:0 "
         +:+ "-show_entries stream=r_frame_rate "
         +:+ "-of default=noprint_wrappers=1:nokey=1 " +:+ quoted input_file).

(** The frame rate string: [num/den] or a decimal number. *)
Definition parse_frame_rate (fr_str : string) : res PyFloat.t :=
  if PyStr.has_char "/" fr_str then
    match PyStr.split "/" fr_str with
    | [a; b] =>
        match PyStr.int a, PyStr.int b with
        | Ret num, Ret den => PyFloat.true_div num den
        | _, _ => Raise
        end
    | _ => Raise
    end
  else PyFloat.float fr_str.

(** The size-based guess of the last resort, from the size in bytes. *)
Definition size_estimate (size : Z) : Z :=
  let file_size := (inject_Z size / inject_Z (1024 * 1024))%Q in
  PyFloat.trunc ((file_size * 8 * 1024 * 1024) / (20000000 / 25))%Q.

Definition vspipe_args (cfg : Config) (input_file : string) (frame_count : Z)
  : list string :=
  ["vspipe"; "-a"; "input_file=" +:+ input_file; "upscale.vpy"]
  ++ (if TEST_MODE cfg then ["-s"; "0"; "-e"; pretty (TEST_FRAME_COUNT cfg - 1)]
      else if negb (frame_count =? 0) && (frame_count >? 0)
      then ["-s"; "0"; "-e"; pretty (frame_count - 1)]
      else [])
  ++ ["-"].

Definition ffmpeg_cmd (output_file : string) : string :=
  "ffmpeg -f rawvideo -pix_fmt yuv422p10le -s 3840x2160 -r 25/1 -i - "
  +:+ "-c:v prores_ks -profile:v 3 -pix_fmt yuv422p10le "
  +:+ "-color_range tv -color_primaries 12 -color_trc 11 -colorspace 12 "
  +:+ "-video_track_timescale 25 -y " +:+ quoted output_file.

Definition pipeline_cmd (cfg : Config) (input_file output_file : string)
    (frame_count : Z) : string :=
  let vspipe_cmd :=
    PyStr.join " "
      ((λ arg, if PyStr.has_char " " arg then quoted arg else arg)
         <$> vspipe_args cfg input_file frame_count) in
  vspipe_cmd +:+ " | " +:+ ffmpeg_cmd output_file.

Definition output_duration_command (output_file : string) : command :=
  Shell ("ffprobe -v error -show_entries format=duration "
         +:+ "-of default=noprint_wrappers=1:nokey=1 " +:+ quoted output_file).

Definition color_command (output_file : string) : command :=
  Shell ("ffprobe -v error -select_streams v:0 "
         +:+ "-show_entries stream=color_primaries,color_trc,colorspace,color_range "
         +:+ "-of default=noprint_wrappers=1 " +:+ quoted output_file).

Definition expected_primaries : list string := ["smpte432"; "12"].
Definition expected_trc : list string := ["smpte428"; "11"].
Definition expected_colorspace : list string := ["smpte432"; "12"].

(** [any(exp in color_info.get(key, '').lower() for exp in expected)] *)
Definition tag_ok (color_info : gmap string string) (key : string)
    (expected : list string) : bool :=
  existsb (λ exp, PyStr.contains exp (PyStr.lower (get_str color_info key)))
          expected.

Definition color_tags_ok (color_info : gmap string string) : bool :=
  let primaries_ok := tag_ok color_info "color_primaries" expected_primaries in
  let trc_ok := tag_ok color_info "color_trc" expected_trc in
  let colorspace_ok := tag_ok color_info "colorspace" expected_colorspace in
  primaries_ok && trc_ok && colorspace_ok.

(** Falsity of the value [rewrap_to_prores] returned: [None] or [''] . *)
Definition no_path (p : option string) : bool :=
  match p with
  | None => true
  | Some s => PyStr.is_empty s
  end.

Record summary := Summary {
  total_files : nat;
  successful_files : nat;
  failed_files : nat
}.

Section Pipeline.
Context {W : Type} `{World W}.

(** The body of the [try] of [get_frame_count]: the frame count of the
    stream header, else duration times frame rate. *)
Definition probe_frame_count (input_file : string) : M Z :=
  let* result := spawn (nb_frames_command input_file) in
  let out := PyStr.strip (stdout result) in
  if (returncode result =? 0) && PyStr.isdigit out then
    lift (PyStr.int out)
  else
    let* dur_res := spawn (duration_command input_file) in
    let* duration := lift (PyFloat.float (PyStr.strip (stdout dur_res))) in
    let* fr_res := spawn (frame_rate_command input_file) in
    let fr_str := PyStr.strip (stdout fr_res) in
    let* fr := lift (parse_frame_rate fr_str) in
    lift (PyFloat.to_int (PyFloat.mul duration fr)).

Definition get_frame_count (input_file : string) : M Z :=
  catch
    (probe_frame_count input_file)
    (let* size := getsize input_file in
     ret (size_estimate size)).

Definition build_and_execute_command (cfg : Config)
    (input_file output_file : string) (frame_count : Z) : M bool :=
  catch
    (let* ended :=
       start_and_wait (pipeline_cmd cfg input_file output_file frame_count) in
     match ended with
     | NotStarted => ret false
     | Exited rc => ret (rc =? 0)
     | WaitRaised => throw
     end)
    (ret false).

Definition verify_output_quality (output_file : string) : M bool :=
  let* present := path_exists output_file in
  if negb present then ret false
  else
    let* file_size := getsize output_file in
    if file_size <? 1000000 then ret false
    else
      catch
        (let* result := spawn (output_duration_command output_file) in
         let duration_str := PyStr.strip (stdout result) in
         if (returncode result =? 0) && negb (PyStr.is_empty duration_str) then
           if bool_decide (PyStr.lower duration_str ∈ ["n/a"; "na"; EmptyString])
           then ret true
           else match PyFloat.float duration_str with
                | Ret _ => ret true
                | Raise => ret true
                end
         else ret false)
        (ret false).

Definition verify_color_space (output_file : string) : M bool :=
  let* present := path_exists output_file in
  if negb present then ret false
  else
    catch
      (let* result := spawn (color_command output_file) in
       if returncode result =? 0 then
         ret (color_tags_ok (parse_key_values (stdout result)))
       else ret false)
      (ret false).

Definition process_single_file (cfg : Config) (output_dir : string)
    (input_file_path : string) : M bool :=
  catch
    (let output_file := get_output_filename input_file_path output_dir in
     let* skip := should_skip_file cfg input_file_path output_file in
     if skip then ret true
     else
       let* rewrapped_file := rewrap_to_prores input_file_path output_dir in
       if no_path rewrapped_file then ret false
       else
         let input_file := default EmptyString rewrapped_file in
         let* frame_count := get_frame_count input_file in
         let* processed :=
           build_and_execute_command cfg input_file output_file frame_count in
         if negb processed then ret false
         else
           let* verified := verify_output_quality output_file in
           if verified then
             let* _ := verify_color_space output_file in
             ret true
           else ret false)
    (ret false).

(** The loop of [main] over [context.files_to_process]. *)
Fixpoint process_files (cfg : Config) (output_dir : string)
    (files : list string) (successful_files failed_files : nat)
  : M (nat * nat) :=
  match files with
  | [] => ret (successful_files, failed_files)
  | file_path :: rest =>
      let* ok := process_single_file cfg output_dir file_path in
      if ok
      then process_files cfg output_dir rest (S successful_files) failed_files
      else process_files cfg output_dir rest successful_files (S failed_files)
  end.

(** The counts of the final summary printed by [main]. *)
Definition batch_summary (cfg : Config) (output_dir : string)
    (files_to_process : list string) : M summary :=
  let* '(successful, failed) :=
    process_files cfg output_dir files_to_process 0%nat 0%nat in
  ret (Summary (length files_to_process) successful failed).

End Pipeline.

(** ** The frame patterns of the progress monitor *)

Module Regex.
Import PyStr.

(** The pieces the three frame patterns are made of: a literal character
    (matched without regard to case), [\s*], and the group [(\d+)]. *)
Inductive atom :=
  | Chr (c : ascii)
  | Spaces
  | Digits.

Definition pattern := list atom.

Fixpoint literal (s : string) : pattern :=
  match s with
  | EmptyString => []
  | String c r => Chr c :: literal r
  end.

(** Greedy [\s*] followed by [k], giving back characters on failure. *)
Fixpoint star_space (k : string → option string) (s : string) : option string :=
  match s with
  | String c r =>
      if is_space c then
        match star_space k r with
        | Some g => Some g
        | None => k s
        end
      else k s
  | EmptyString => k s
  end.

(** Greedy [(\d+)] followed by [k], which receives the group and the
    rest; gives back digits on failure. *)
Fixpoint plus_digits (k : string → string → option string) (s : string)
  : option string :=
  match s with
  | String c r =>
      if is_digit c then
        match plus_digits (λ ds rest, k (String c ds) rest) r with
        | Some g => Some g
        | None => k (String c EmptyString) r
        end
      else None
  | EmptyString => None
  end.

(** Match [p] at the start of [s]; the result is group 1. *)
Fixpoint match_here (p : pattern) (group : string) (s : string) : option string :=
  match p with
  | [] => Some group
  | Chr c :: p' =>
      match s with
      | String a r =>
          if eqb_char (lower_char a) (lower_char c) then match_here p' group r
          else None
      | EmptyString => None
      end
  | Spaces :: p' => star_space (match_here p' group) s
  | Digits :: p' => plus_digits (λ ds rest, match_here p' ds rest) s
  end.

(** [re.search(p, s, re.IGNORECASE)]: the leftmost match, as group 1. *)
Fixpoint search (p : pattern) (s : string) : option string :=
  match match_here p EmptyString s with
  | Some g => Some g
  | None =>
      match s with
      | String _ r => search p r
      | EmptyString => None
      end
  end.

End Regex.

(** [frame=\s*(\d+)], [Output (\d+) frames], [(\d+) frames in] *)
Definition frame_patterns : list Regex.pattern :=
  [ Regex.literal "frame=" ++ [Regex.Spaces; Regex.Digits];
    Regex.literal "Output " ++ [Regex.Digits] ++ Regex.literal " frames";
    [Regex.Digits] ++ Regex.literal " frames in" ].

(** ** [monitor_progress] *)

(** The fields of [AppContext] the monitor reads and writes. *)
Record context := Context {
  current_frame : Z;
  frame_count : Z;
  vapoursynth_started : bool;
  last_frame_time : option Z;
  last_frame_count : Z
}.

(** The speed column; the frames-per-second figure is kept as the two
    differences it is the quotient of. *)
Inductive speed_text :=
  | Starting
  | Calculating
  | Fps (frame_diff time_diff : Z).

(** One call of [batch_progress.update] for the current file. *)
Record progress_update := Update {
  completed : Z;
  total : Z;
  speed : speed_text
}.

(** One line read from the diagnostic stream: the text, the clock when it
    was read, and whether [process.poll()] then showed the process gone. *)
Record stderr_line := Line {
  text : string;
  read_time : Z;
  exited : bool
}.

Definition startup_markers : list string :=
  ["[FORMAT]"; "[SOURCE]"; "FFmpegSource2 loaded successfully";
   "LSMASHSource loaded successfully"].

Definition detect_start (ctx : context) (line : string) : context :=
  if negb (vapoursynth_started ctx)
     && existsb (λ marker, PyStr.contains marker line) startup_markers
  then Context (current_frame ctx) (frame_count ctx) true
               (last_frame_time ctx) (last_frame_count ctx)
  else ctx.

(** What happens once a pattern has matched and its group has been read
    as [new_frame]. *)
Definition accept_frame (cfg : Config) (ctx : context) (current_time new_frame : Z)
  : context * option progress_update :=
  if new_frame >? current_frame ctx then
    let speed_text :=
      match last_frame_time ctx with
      | Some last =>
          let time_diff := current_time - last in
          let frame_diff := new_frame - last_frame_count ctx in
          if (time_diff >? 0) && (frame_diff >? 0)
          then Fps frame_diff time_diff
          else Calculating
      | None => Starting
      end in
    let ctx' := Context new_frame (frame_count ctx) (vapoursynth_started ctx)
                        (Some current_time) new_frame in
    let update :=
      if TEST_MODE cfg then
        Update (Z.min new_frame (TEST_FRAME_COUNT cfg)) (TEST_FRAME_COUNT cfg)
               speed_text
      else
        Update new_frame
               (if negb (frame_count ctx =? 0) then frame_count ctx
                else new_frame + 1000)
               speed_text in
    (ctx', Some update)
  else (ctx, None).

(** The loop over the patterns: the first one that matches decides; a
    group [int] rejects lets the next pattern try. *)
Fixpoint scan_patterns (cfg : Config) (ctx : context) (current_time : Z)
    (line : string) (patterns : list Regex.pattern)
  : context * option progress_update :=
  match patterns with
  | [] => (ctx, None)
  | p :: rest =>
      match Regex.search p line with
      | Some group =>
          match PyStr.int group with
          | Ret new_frame => accept_frame cfg ctx current_time new_frame
          | Raise => scan_patterns cfg ctx current_time line rest
          end
      | None => scan_patterns cfg ctx current_time line rest
      end
  end.

(** The loop over the lines of the stream.  An exception of the debug log
    or of the progress display ends the loop as the end of the stream
    does. *)
Fixpoint monitor_lines (cfg : Config) (ctx : context) (lines : list stderr_line)
  : context * list progress_update :=
  match lines with
  | [] => (ctx, [])
  | l :: rest =>
      let line := PyStr.strip (text l) in
      if PyStr.is_empty line then monitor_lines cfg ctx rest
      else if exited l then (ctx, [])
      else
        let ctx1 := detect_start ctx line in
        let '(ctx2, update) :=
          scan_patterns cfg ctx1 (read_time l) line frame_patterns in
        let '(ctx3, updates) := monitor_lines cfg ctx2 rest in
        (ctx3, option_list update ++ updates)
  end.

Definition monitor_progress (cfg : Config) (ctx : context)
    (lines : list stderr_line) : context * list progress_update :=
  let ctx0 := Context 0 (frame_count ctx) (vapoursynth_started ctx)
                      (last_frame_time ctx) (last_frame_count ctx) in
  if RICH_AVAILABLE cfg && BATCH_MODE cfg then monitor_lines cfg ctx0 lines
  else (ctx0, []).

(** ** [ProcessWatchdog] *)

Record watchdog := Watchdog {
  timeout : Z;
  check_interval : Z;
  last_output_time : Z;
  output_detected : bool
}.

(** [ProcessWatchdog(process, timeout, check_interval)] created at [now]. *)
Definition new_watchdog (timeout check_interval now : Z) : watchdog :=
  Watchdog timeout check_interval now false.

Definition reset_timer (now : Z) (wd : watchdog) : watchdog :=
  Watchdog (timeout wd) (check_interval wd) now true.

(** What one call of [check_process_health] observes: the clock at its
    start, whether the process has exited, and the clock as each queued
    output item is taken off the queue. *)
Record health_check := Check {
  current_time : Z;
  process_exited : bool;
  drained : list Z
}.

Definition check_process_health (wd : watchdog) (c : health_check)
  : bool * watchdog :=
  if process_exited c then (false, wd)
  else
    let wd' := foldl (λ w now, reset_timer now w) wd (drained c) in
    if (current_time c - last_output_time wd' >? timeout wd')
       && output_detected wd'
    then (false, wd')
    else (true, wd').

(** The monitoring loop over the checks made before the stop event is
    set: the check at which the process is declared frozen and [cleanup]
    is called, with the watchdog as it then is. *)
Fixpoint monitor (wd : watchdog) (checks : list health_check)
  : option (health_check * watchdog) :=
  match checks with
  | [] => None
  | c :: rest =>
      let '(healthy, wd') := check_process_health wd c in
      if healthy then monitor wd' rest else Some (c, wd')
  end.

(** [cleanup] calls [terminate] only on a process that is still running. *)
Definition cleanup_terminates (c : health_check) : bool := negb (process_exited c).

(** Checks of a running, silent process, [check_interval] apart. *)
Definition silent_checks (start interval : Z) (n : nat) : list health_check :=
  (λ k, Check (start + Z.of_nat k * interval) false []) <$> seq 0 n.

(** ** A simulated world for concrete scenarios *)

Module Sim.

(** Files with their metadata, a clock that stamps written files, and
    what each external tool does when called. *)
Record world := Mk {
  files : gmap string file_stat;
  clock : Z;
  written_size : Z;
  ffprobe : command → res completed_process;
  ffmpeg : res completed_process;
  pipeline : launched
}.

Definition write (path : string) (w : world) : world :=
  Mk (<[path := FileStat (clock w) (written_size w)]> (files w))
     (clock w + 1) (written_size w) (ffprobe w) (ffmpeg w) (pipeline w).

Fixpoint until_quote (s : string) : string :=
  match s with
  | EmptyString => EmptyString
  | String c r => if PyStr.eqb_char c "034" then EmptyString
                  else String c (until_quote r)
  end.

(** The text between the last pair of double quotes of a command line. *)
Definition last_quoted (line : string) : string :=
  match String.rev line with
  | String _ r => String.rev (until_quote r)
  | EmptyString => EmptyString
  end.

(** An encoder that exits with zero has written its last argument. *)
Definition sim_run (c : command) (w : world) : res completed_process * world :=
  match c with
  | Argv ("ffmpeg" :: args) =>
      match ffmpeg w with
      | Ret r =>
          if returncode r =? 0 then (Ret r, write (List.last args EmptyString) w)
          else (Ret r, w)
      | Raise => (Raise, w)
      end
  | _ => (ffprobe w c, w)
  end.

Definition sim_launch (line : string) (w : world) : launched * world :=
  match pipeline w with
  | Exited rc =>
      if rc =? 0 then (Exited rc, write (last_quoted line) w) else (Exited rc, w)
  | other => (other, w)
  end.

#[global] Instance sim_world : World world := {
  stat w path := files w !! path;
  run := sim_run;
  launch := sim_launch
}.

Definition nl : string := String "010" EmptyString.

Definition lines (l : list string) : string := PyStr.join nl l.

Definition ok (out : string) : res completed_process := Ret (Completed 0 out EmptyString).

Definition command_text (c : command) : string :=
  match c with
  | Shell line => line
  | Argv args => PyStr.join " " args
  end.

(** A prober that knows a DV source in an AVI container (no frame count
    in the header, ten seconds at 25 fps) and reports DCI-P3 tags. *)
Definition dv_prober (c : command) : res completed_process :=
  let line := command_text c in
  if PyStr.contains "nb_frames" line then ok ("N/A" +:+ nl)
  else if PyStr.contains "format=duration" line then ok ("10.000000" +:+ nl)
  else if PyStr.contains "r_frame_rate -of" line then ok ("25/1" +:+ nl)
  else if PyStr.contains "color_primaries" line then
    ok (lines ["color_primaries=smpte432"; "color_trc=smpte428";
               "colorspace=smpte432"; "color_range=tv"] +:+ nl)
  else
    ok (lines ["codec_name=dvvideo"; "pix_fmt=yuv420p"; "width=720";
               "height=576"; "field_order=bt"; "r_frame_rate=25/1";
               "format_name=avi"] +:+ nl).

(** The same source, but the output is reported with BT.709 tags. *)
Definition bt709_prober (c : command) : res completed_process :=
  if PyStr.contains "color_primaries" (command_text c) then
    ok (lines ["color_primaries=bt709"; "color_trc=bt709";
               "colorspace=bt709"; "color_range=tv"] +:+ nl)
  else dv_prober c.

(** A prober that fails on every call. *)
Definition broken_prober (c : command) : res completed_process :=
  Ret (Completed 1 EmptyString "Invalid data found when processing input").

(** A prober for a source that is already ProRes in a QuickTime file. *)
Definition prores_prober (c : command) : res completed_process :=
  let line := command_text c in
  if PyStr.contains "format=format_name" line then
    ok (lines ["codec_name=prores"; "pix_fmt=yuv422p10le"; "width=1920";
               "height=1080"; "field_order=progressive"; "r_frame_rate=25/1";
               "format_name=mov,mp4,m4a,3gp,3g2,mj2"] +:+ nl)
  else dv_prober c.

Definition config : Config := {|
  BATCH_MODE := true;
  SKIP_EXISTING := true;
  TEST_MODE := true;
  TEST_FRAME_COUNT := 200;
  RICH_AVAILABLE := true
|}.

Definition config_no_skip : Config := {|
  BATCH_MODE := true;
  SKIP_EXISTING := false;
  TEST_MODE := true;
  TEST_FRAME_COUNT := 200;
  RICH_AVAILABLE := true
|}.

End Sim.

(** ** The skip rule as the specification words it *)

(** The skip rule of the specification: skip-existing enabled, an output
    artifact exists, it is newer than the source, and its size is at
    least the 1MB floor. *)
Definition skip_rule (skip_existing : bool) (input output : option file_stat)
  : bool :=
  skip_existing &&
  match output, input with
  | Some o, Some i => (st_mtime o >? st_mtime i) && (st_size o >=? 1000000)
  | _, _ => false
  end.

(** ** Vocabulary of the statements *)

(** The status a job ends in, read off the code: skipped when the skip rule
    fires, else succeeded or failed by what [process_single_file] returns. *)
Inductive job_status :=
  | JobSkipped
  | JobSucceeded
  | JobFailed.

#[global] Instance job_status_eq_dec : EqDecision job_status.
Proof. solve_decision. Defined.

Section Jobs.
Context {W : Type} `{World W}.

Definition job_status_of (cfg : Config) (output_dir file : string) (w : W)
  : job_status :=
  match should_skip_file cfg file (get_output_filename file output_dir) w with
  | (Ret true, _, _) => JobSkipped
  | _ =>
      match process_single_file cfg output_dir file w with
      | (Ret true, _, _) => JobSucceeded
      | _ => JobFailed
      end
  end.

(** The statuses of the jobs of a batch, each taken in the world its job
    starts in. *)
Fixpoint job_statuses (cfg : Config) (output_dir : string)
    (files : list string) (w : W) : list job_status :=
  match files with
  | [] => []
  | file :: rest =>
      job_status_of cfg output_dir file w
      :: job_statuses cfg output_dir rest
           (process_single_file cfg output_dir file w).2
  end.

End Jobs.

Fixpoint count_status (s : job_status) (l : list job_status) : nat :=
  match l with
  | [] => 0
  | x :: rest => (if decide (x = s) then 1 else 0) + count_status s rest
  end.

(** The final summary shows these totals. *)
Definition reports {W} (r : res summary * list event * W)
    (total succeeded failed : nat) : Prop :=
  r.1.1 = Ret (Summary total succeeded failed).

(** The frame number a line carries: the group of the first pattern, in
    order, that matches it and that [int] accepts. *)
Fixpoint first_capture (line : string) (patterns : list Regex.pattern)
  : option Z :=
  match patterns with
  | [] => None
  | p :: rest =>
      match Regex.search p line with
      | Some group =>
          match PyStr.int group with
          | Ret n => Some n
          | Raise => first_capture line rest
          end
      | None => first_capture line rest
      end
  end.

(** The [completed] value published for a frame index. *)
Definition reported (cfg : Config) (frame : Z) : Z :=
  if TEST_MODE cfg then Z.min frame (TEST_FRAME_COUNT cfg) else frame.

(** What the prober's answer makes of [video_info], and the events of the
    probing step of [rewrap_to_prores]. *)
Definition probed_info (result : completed_process)
  : option (gmap string string) :=
  if returncode result =? 0 then Some (parse_key_values (stdout result))
  else None.

Definition probe_events (source_file : string) (result : completed_process)
  : list event :=
  [Spawn (probe_command source_file)]
  ++ (if returncode result =? 0 then [] else [Diag (ProbeFailed (stderr result))])
  ++ (if has_info (probed_info result) then [] else [Diag CouldNotAnalyze]).

(** The source is a QuickTime/MOV file that holds ProRes video, as
    [needs_rewrapping] tests it. *)
Definition is_mov_prores (info : gmap string string) : bool :=
  let format_name := PyStr.lower (get_str info "format_name") in
  let codec_name := PyStr.lower (get_str info "codec_name") in
  (PyStr.contains "mov" format_name || PyStr.contains "quicktime" format_name)
  && PyStr.contains "prores" codec_name.

(** ** Scenarios *)

Module Scenario.
Import Sim.

Definition source : file_stat := FileStat 10 50000000.

(** Three sources; the output of the second one is already there, newer
    than its source and two million bytes long. *)
Definition three_files : world :=
  Mk (<["in/a.avi" := source]> (<["in/b.avi" := source]>
      (<["in/c.avi" := source]> (<["out/b.mov" := FileStat 20 2000000]> ∅))))
     100 3000000 dv_prober (ok EmptyString) (Exited 0).

(** One source whose output is newer and exactly 1000000 bytes long. *)
Definition at_floor : world :=
  Mk (<["in/a.avi" := source]> (<["out/a.mov" := FileStat 20 1000000]> ∅))
     100 3000000 dv_prober (ok EmptyString) (Exited 0).

(** A source of 50000 bytes that the prober cannot read. *)
Definition unreadable : world :=
  Mk (<["in/tiny.avi" := FileStat 10 50000]> ∅)
     100 3000000 broken_prober (ok EmptyString) (Exited 0).

(** No encoder can be spawned; an intermediate file of an earlier run is
    still in the output directory. *)
Definition no_encoder : world :=
  Mk (<["in/a.avi" := source]> (<["out/a_prores.mov" := FileStat 5 3000000]> ∅))
     100 3000000 dv_prober Raise (Exited 0).

(** The encoder rejects the source. *)
Definition encoder_fails : world :=
Mk (<["in/a.avi" := source]> ∅)
   100 3000000 dv_prober (Ret (Completed 1 EmptyString "Invalid pixel format")) (Exited 0).

(** One source whose output will carry the wrong color tags. *)
Definition wrong_colors : world :=
Mk (<["in/a.avi" := source]> ∅)
   100 3000000 bt709_prober (ok EmptyString) (Exited 0).

(** A source that is already ProRes in a QuickTime container. *)
Definition prores_source : world :=
  Mk (<["in/master.mov" := source]> ∅)
     100 3000000 prores_prober (ok EmptyString) (Exited 0).

(** Two sources with one base name in different directories. *)
Definition same_name : world :=
  Mk (<["in/x/clip.avi" := source]> (<["in/y/clip.mp4" := source]> ∅))
     100 3000000 dv_prober (ok EmptyString) (Exited 0).

End Scenario.

(** ** [find_video_files] *)

Definition SUPPORTED_EXTENSIONS : list string :=
  [".avi"; ".mov"; ".mp4"; ".mkv"; ".mpg"; ".mpeg";
   ".ts"; ".mts"; ".m2ts"; ".mxf"; ".dv"; ".hdv"].

(** What a directory holds: plain files and folders with their own
    entries.  A name is one path component. *)
#[warning="-register-all"]
Inductive entry :=
  | File (name : string)
  | Folder (name : string) (children : list entry).

Definition entry_name (e : entry) : string :=
  match e with
  | File name => name
  | Folder name _ => name
  end.

Module Glob.
Import PyStr.

(** [s.endswith(suffix)] *)
Fixpoint endswith (s suffix : string) : bool :=
  bool_decide (s = suffix) ||
  match s with
  | EmptyString => false
  | String _ r => endswith r suffix
  end.

(** [glob.has_magic]: one of the characters of a pattern is in the path. *)
Definition has_magic (s : string) : bool :=
  has_char "*" s || has_char "?" s || has_char "[" s.

(** [glob._ishidden] on a directory entry. *)
Definition ishidden (name : string) : bool := startswith name ".".

Fixpoint all_seps (s : string) : bool :=
  match s with
  | EmptyString => true
  | String c r => eqb_char c "/" && all_seps r
  end.

(** [s.rstrip('/')] *)
Fixpoint rstrip_sep (s : string) : string :=
  match s with
  | EmptyString => EmptyString
  | String c r =>
      let r' := rstrip_sep r in
      if eqb_char c "/" && is_empty r' then EmptyString else String c r'
  end.

(** The first component of [os.path.split]. *)
Definition dirname (p : string) : string :=
  let head := PosixPath.head p in
  if negb (is_empty head) && negb (all_seps head) then rstrip_sep head else head.

(** [glob._glob1] for the pattern [*ext]: the entries that are not hidden
    and whose name ends in [ext], each joined to the directory. *)
Definition glob1 (dir : string) (entries : list entry) (ext : string)
  : list string :=
  (λ e, PosixPath.join dir (entry_name e))
    <$> filter (λ e, negb (ishidden (entry_name e))
                     && endswith (entry_name e) ext = true) entries.

(** The folders below a directory that [**] reaches, with their entries:
    hidden folders and what is below them are left out. *)
Fixpoint walk (dir : string) (e : entry) : list (string * list entry) :=
  match e with
  | File _ => []
  | Folder name children =>
      if ishidden name then []
      else
        let d := PosixPath.join dir name in
        (d, children) :: flat_map (walk d) children
  end.

(** The directories [dir/**] expands to: the directory itself, then the
    folders below it. *)
Definition recursive_dirs (dir : string) (entries : list entry)
  : list (string * list entry) :=
  (PosixPath.join dir EmptyString, entries) :: flat_map (walk dir) entries.

(** [glob.glob(os.path.join(directory_path, "*" + ext))] and, with
    [recursive], [glob.glob(os.path.join(directory_path, "**", "*" + ext),
    recursive=True)], for a directory path without pattern characters that
    holds [entries]. *)
Definition glob (recursive : bool) (directory_path : string)
    (entries : list entry) (ext : string) : list string :=
  let dir := dirname (PosixPath.join directory_path ("*" +:+ ext)) in
  if recursive then
    flat_map (λ d, glob1 d.1 d.2 ext) (recursive_dirs dir entries)
  else glob1 dir entries ext.

End Glob.

(** [find_video_files(directory_path)], with [PROCESS_SUBDIRECTORIES] and
    the content of the directory as arguments. *)
Definition find_video_files (process_subdirectories : bool)
    (directory_path : string) (entries : list entry) : list string :=
  let video_files :=
    flat_map (Glob.glob process_subdirectories directory_path entries)
             SUPPORTED_EXTENSIONS in
  merge_sort String.le video_files.

(** ** [main]: what is going to be processed *)

(** How [main] goes on after it has looked at the input path. *)
Inductive input_plan :=
  | ProcessFiles (files_to_process : list string)
  | ExitNoFiles
  | ExitMissingInput
  | ExitInvalidPath.

(** The branch on [BATCH_MODE] and the kind of [INPUT_PATH] in [main];
    [found] is what [find_video_files] returns for the path. *)
Definition plan_input (batch_mode : bool) (input_path : string)
    (isdir isfile path_exists : bool) (found : list string) : input_plan :=
  if batch_mode && isdir then
    match found with
    | [] => ExitNoFiles
    | _ => ProcessFiles found
    end
  else if negb batch_mode || isfile then
    if negb path_exists then ExitMissingInput
    else ProcessFiles [input_path]
  else ExitInvalidPath.

(** A directory for the scenarios of discovery: supported and unsupported
    files, a hidden file, an extension in upper case, a folder with a
    hidden folder inside, and a folder named like a video. *)
Module Disk.

Definition inbox : list entry :=
  [File "b.avi"; File "a.mp4"; File ".hidden.avi"; File "notes.txt";
   File "c.AVI";
   Folder "sub" [File "z.mkv"; Folder ".git" [File "x.avi"];
                 Folder "deep" [File "d.ts"]];
   Folder "clips.mov" [File "e.dv"]].

End Disk.

(** A string of white space only. *)
Fixpoint all_spaces (s : string) : bool :=
  match s with
  | EmptyString => true
  | String c r => PyStr.is_space c && all_spaces r
  end.

(** The string does not go on with a digit. *)
Definition no_digit_ahead (s : string) : bool :=
  match s with
  | EmptyString => true
  | String c _ => negb (PyStr.is_digit c)
  end.

(** One step of the loop of [get_video_info] over the lines. *)
Definition add_line (info : gmap string string) (line : string)
  : gmap string string :=
  if PyStr.has_char "=" line then
    match PyStr.split_first "=" line with
    | Some (key, value) => <[key := value]> info
    | None => info
    end
  else info.

(** * Properties *)

(** ** Sanity checks of the string and path helpers *)

Example basename_ex : PosixPath.basename "in/sub/clip.v2.avi" = "clip.v2.avi".
Proof. reflexivity. Qed.

Example splitext_ex :
  PosixPath.splitext "in/sub/clip.v2.avi" = ("in/sub/clip.v2", ".avi")
  ∧ PosixPath.splitext "in.d/.hidden" = ("in.d/.hidden", EmptyString)
  ∧ PosixPath.splitext "in.d/clip" = ("in.d/clip", EmptyString).
Proof. repeat split; reflexivity. Qed.

Example join_ex :
  PosixPath.join "out" "a.mov" = "out/a.mov"
  ∧ PosixPath.join "out/" "a.mov" = "out/a.mov"
  ∧ PosixPath.join EmptyString "a.mov" = "a.mov".
Proof. repeat split; reflexivity. Qed.

Example int_ex :
  PyStr.int " 1080 " = Ret 1080 ∧ PyStr.int "-4_80" = Ret (-480)
  ∧ PyStr.int "N/A" = Raise ∧ PyStr.int EmptyString = Raise ∧ PyStr.int "4__8" = Raise.
Proof. repeat split; reflexivity. Qed.


Example sim_probe_ex :
  parse_key_values (Sim.lines ["codec_name=dvvideo"; "height=576"; "x"; "a=b=c"]
                    +:+ Sim.nl)
  = <["a" := "b=c"]> (<["height" := "576"]> (<["codec_name" := "dvvideo"]> ∅)).
Proof. vm_compute. reflexivity. Qed.

Example float_ex :
  PyFloat.float "10.000000" = Ret (PyFloat.Finite (10000000 # 1000000))
  ∧ PyFloat.float "N/A" = Raise
  ∧ PyFloat.float EmptyString = Raise
  ∧ PyFloat.float "-inf" = Ret PyFloat.NonFinite
  ∧ PyFloat.float "." = Raise
  ∧ PyFloat.float "2.5e1" = Ret (PyFloat.Finite (250 # 10)).
Proof. vm_compute. repeat split; reflexivity. Qed.

Example pipeline_cmd_ex :
  pipeline_cmd Sim.config "out/my clip_prores.mov" "out/my clip.mov" 0
  = "vspipe -a " +:+ quoted "input_file=out/my clip_prores.mov"
    +:+ " upscale.vpy -s 0 -e 199 - | " +:+ ffmpeg_cmd "out/my clip.mov".
Proof. vm_compute. reflexivity. Qed.

Example search_ex :
  Regex.search (Regex.literal "frame=" ++ [Regex.Spaces; Regex.Digits])
               "FRAME=   120 fps=25" = Some "120"
  ∧ Regex.search ([Regex.Digits] ++ Regex.literal " frames in")
                 "12a 34 frames in 2s" = Some "34"
  ∧ Regex.search (Regex.literal "Output " ++ [Regex.Digits] ++ Regex.literal " frames")
                 "output 77 frame" = None.
Proof. vm_compute. repeat split; reflexivity. Qed.

(** ** Reasoning about computations on the world *)

Section EffectLemmas.
Context {W : Type} `{World W}.

Lemma bind_run {A B} (m : M A) (k : A → M B) (w w1 : W) a t :
  m w = (Ret a, t, w1) →
  bind m k w = (let '(r, t', w2) := k a w1 in (r, t ++ t', w2)).
Proof. intros Hm. unfold bind. rewrite Hm. reflexivity. Qed.

Lemma bind_raise {A B} (m : M A) (k : A → M B) (w w1 : W) t :
  m w = (Raise, t, w1) → bind m k w = (Raise, t, w1).
Proof. intros Hm. unfold bind. rewrite Hm. reflexivity. Qed.

End EffectLemmas.


(** ** The skip rule *)

(** Unfold the plumbing of a computation on the world. *)
Ltac run_effects :=
  unfold bind, catch, ret, throw, lift, say, path_exists, getmtime, getsize in *;
  simpl in *.


Section SkipRuleFacts.
Context {W : Type} `{World W}.
(** The skip decision reads the world and leaves it alone. *)
Lemma should_skip_file_pure cfg input output (w : W) :
  ∃ r, should_skip_file cfg input output w = (r, [], w).
Proof.
  unfold should_skip_file. run_effects.
  repeat case_match; simplify_eq/=; eauto.
Qed.

(** What the code decides: the size test is strict. *)
Lemma should_skip_file_true_iff cfg input output (w : W) :
  should_skip_file cfg input output w = (Ret true, [], w)
  ↔ SKIP_EXISTING cfg = true
    ∧ ∃ o i, stat w output = Some o ∧ stat w input = Some i
             ∧ st_mtime i < st_mtime o ∧ 1000000 < st_size o.
Proof.
  unfold should_skip_file. run_effects.
  split.
  - destruct (SKIP_EXISTING cfg); simpl; [|done].
    intros Hrun. repeat case_match; simplify_eq/=.
    split; [done|]. eexists _, _. repeat split; eauto; lia.
  - intros (Hon & o & i & Ho & Hi & Hnew & Hbig).
    rewrite Hon. simpl. rewrite Ho. simpl. rewrite Hi. simpl. rewrite ?Ho. simpl.
    replace (st_mtime o >? st_mtime i) with true by (symmetry; lia).
    simpl. rewrite ?Ho. simpl.
    replace (st_size o >? 1000000) with true by (symmetry; lia).
    reflexivity.
Qed.

(** With skip-existing disabled nothing is skipped, whatever the files. *)
Lemma should_skip_file_disabled cfg input output (w : W) :
  SKIP_EXISTING cfg = false →
  should_skip_file cfg input output w = (Ret false, [], w).
Proof. intros Hoff. unfold should_skip_file. rewrite Hoff. reflexivity. Qed.

(** Away from a size of exactly 1000000 bytes the code and the rule of
    the specification agree. *)
Lemma should_skip_file_off_floor cfg input output (w : W) i :
  stat w input = Some i →
  (∀ o, stat w output = Some o → st_size o ≠ 1000000) →
  should_skip_file cfg input output w
  = (Ret (skip_rule (SKIP_EXISTING cfg) (Some i) (stat w output)), [], w).
Proof.
  intros Hi Hne. unfold should_skip_file, skip_rule. run_effects.
  destruct (SKIP_EXISTING cfg); simpl; [|done].
  destruct (stat w output) as [o|] eqn:Ho;
    repeat (progress (simpl; rewrite ?Hi, ?Ho)); [|done].
  specialize (Hne o eq_refl).
  destruct (Z.gtb_spec (st_mtime o) (st_mtime i));
    repeat (progress (simpl; rewrite ?Hi, ?Ho)); [|done].
  destruct (Z.gtb_spec (st_size o) 1000000), (Z.geb_spec (st_size o) 1000000);
    simpl; try done; lia.
Qed.
End SkipRuleFacts.

(** C1 (the code departs from the claim).  The claim: the skip decision is
    true exactly when skip-existing is enabled, the output exists, is newer
    than the input and its size clears the 1MB floor.  On an output that is
    newer and exactly 1000000 bytes long the rule of the specification says
    skip, and [should_skip_file], whose comment reads "At least 1MB", says
    no. *)
Theorem should_skip_file_at_floor :
  let w := Scenario.at_floor in
  skip_rule (SKIP_EXISTING Sim.config)
            (stat w "in/a.avi") (stat w "out/a.mov") = true
  ∧ get_output_filename "in/a.avi" "out" = "out/a.mov"
  ∧ should_skip_file Sim.config "in/a.avi" "out/a.mov" w = (Ret false, [], w).
Proof. vm_compute. repeat split; reflexivity. Qed.

(** ** The batch loop *)

Section BatchFacts.
Context {W : Type} `{World W}.

(** Whatever happens inside a job is caught at the job boundary. *)
Lemma process_single_file_returns cfg output_dir file (w : W) :
  ∃ b t w', process_single_file cfg output_dir file w = (Ret b, t, w').
Proof.
  unfold process_single_file, catch, ret.
  match goal with |- context [match ?body w with _ => _ end] =>
    destruct (body w) as [[[b|] t] w'] end; eauto.
Qed.

(** A job the skip rule fires for succeeds at once: nothing is spawned and
    the world is as before. *)
Lemma process_single_file_skip cfg output_dir file (w : W) :
  should_skip_file cfg file (get_output_filename file output_dir) w
  = (Ret true, [], w) →
  process_single_file cfg output_dir file w = (Ret true, [], w).
Proof.
  intros Hskip. unfold process_single_file, catch.
  unfold bind at 1. rewrite Hskip. reflexivity.
Qed.

Lemma job_skipped_iff cfg output_dir file (w : W) :
  job_status_of cfg output_dir file w = JobSkipped
  ↔ SKIP_EXISTING cfg = true
    ∧ ∃ o i, stat w (get_output_filename file output_dir) = Some o
             ∧ stat w file = Some i
             ∧ st_mtime i < st_mtime o ∧ 1000000 < st_size o.
Proof.
  rewrite <- should_skip_file_true_iff. unfold job_status_of.
  destruct (should_skip_file_pure cfg file
              (get_output_filename file output_dir) w) as [r Hr].
  rewrite Hr. destruct r as [[]|].
  - done.
  - split; [|done]. repeat case_match; done.
  - split; [|done]. repeat case_match; done.
Qed.

(** A job counts as successful unless its status is failed: the skipped
    ones are among the successes. *)
Lemma job_result_status cfg output_dir file (w : W) b t w' :
  process_single_file cfg output_dir file w = (Ret b, t, w') →
  b = bool_decide (job_status_of cfg output_dir file w ≠ JobFailed).
Proof.
  intros Hrun. unfold job_status_of.
  destruct (should_skip_file_pure cfg file
              (get_output_filename file output_dir) w) as [r Hr].
  rewrite Hr. destruct r as [[]|].
  - rewrite (process_single_file_skip _ _ _ _ Hr) in Hrun. by simplify_eq.
  - rewrite Hrun. by destruct b.
  - rewrite Hrun. by destruct b.
Qed.

Lemma process_files_counts cfg output_dir files (w : W) successful failed :
  let statuses := job_statuses cfg output_dir files w in
  ∃ t w',
    process_files cfg output_dir files successful failed w
    = (Ret ((successful + count_status JobSkipped statuses
                        + count_status JobSucceeded statuses)%nat,
            (failed + count_status JobFailed statuses)%nat), t, w').
Proof.
  revert w successful failed.
  induction files as [|file rest IH]; intros w successful failed; simpl.
  - exists [], w. unfold ret. by rewrite !Nat.add_0_r.
  - destruct (process_single_file_returns cfg output_dir file w)
      as (b & t & w1 & Hrun).
    pose proof (job_result_status _ _ _ _ _ _ _ Hrun) as Hb.
    rewrite (bind_run _ _ _ _ _ _ Hrun). rewrite Hrun. simpl.
    destruct (job_status_of cfg output_dir file w) eqn:Hst; simpl in Hb; subst b.
    + destruct (IH w1 (S successful) failed) as (t' & w' & ->).
      exists (t ++ t'), w'. simpl. repeat f_equal; lia.
    + destruct (IH w1 (S successful) failed) as (t' & w' & ->).
      exists (t ++ t'), w'. simpl. repeat f_equal; lia.
    + destruct (IH w1 successful (S failed)) as (t' & w' & ->).
      exists (t ++ t'), w'. simpl. repeat f_equal; lia.
Qed.

Lemma count_status_total (l : list job_status) :
  (count_status JobSkipped l + count_status JobSucceeded l
   + count_status JobFailed l = length l)%nat.
Proof. induction l as [|[] l IH]; simpl; lia. Qed.

Lemma job_statuses_length cfg output_dir files (w : W) :
  length (job_statuses cfg output_dir files w) = length files.
Proof. revert w. induction files; intros; simpl; auto. Qed.

End BatchFacts.

(** C2 (amended).  In a batch of three files in which exactly one job is
    skipped (skip-existing enabled, its output exists, is newer than its
    source and larger than 1000000 bytes) and the other two succeed, the
    final summary shows 3 files, 3 successful and 0 failed: the skipped
    job is counted as a success, and no separate count of skipped files
    exists. *)
Theorem batch_counts_skipped_as_success {W : Type} `{World W}
    cfg output_dir (files : list string) (w : W) :
  let statuses := job_statuses cfg output_dir files w in
  (∀ file w0,
     job_status_of cfg output_dir file w0 = JobSkipped
     ↔ SKIP_EXISTING cfg = true
       ∧ ∃ o i, stat w0 (get_output_filename file output_dir) = Some o
                ∧ stat w0 file = Some i
                ∧ st_mtime i < st_mtime o ∧ 1000000 < st_size o)
  ∧ (length files = 3%nat →
     count_status JobSkipped statuses = 1%nat →
     count_status JobSucceeded statuses = 2%nat →
     reports (batch_summary cfg output_dir files w) 3 3 0).
Proof.
  intros statuses. split; [intros; apply job_skipped_iff|].
  intros Hlen Hskipped Hsucceeded.
  pose proof (count_status_total statuses) as Htotal.
  unfold statuses in *. rewrite job_statuses_length in Htotal.
  unfold reports, batch_summary.
  destruct (process_files_counts cfg output_dir files w 0 0) as (t & w' & Hrun).
  simpl in Hrun. rewrite (bind_run _ _ _ _ _ _ Hrun). simpl.
  rewrite Hlen. f_equal. f_equal; lia.
Qed.

(** The three-file scenario meets the premises of the amended C2. *)
Lemma batch_counts_skipped_as_success_witness :
  job_statuses Sim.config "out" ["in/a.avi"; "in/b.avi"; "in/c.avi"]
               Scenario.three_files
  = [JobSucceeded; JobSkipped; JobSucceeded]
  ∧ reports (batch_summary Sim.config "out" ["in/a.avi"; "in/b.avi"; "in/c.avi"]
                           Scenario.three_files) 3 3 0.
Proof.
  split; [vm_compute; reflexivity|].
  apply (batch_counts_skipped_as_success Sim.config "out"
           ["in/a.avi"; "in/b.avi"; "in/c.avi"] Scenario.three_files);
    vm_compute; reflexivity.
Defined.

(** C2 as stated fails: with the second of three outputs already present,
    newer and two million bytes long, the summary shows 3 successful files,
    not 2. *)
Lemma batch_summary_three_files_not_two :
  ¬ (∃ failed,
       reports (batch_summary Sim.config "out"
                  ["in/a.avi"; "in/b.avi"; "in/c.avi"] Scenario.three_files)
               3 2 failed).
Proof. intros [failed Hr]. vm_compute in Hr. discriminate. Qed.

(** ** The progress monitor *)

Lemma reported_mono cfg a b : a ≤ b → reported cfg a ≤ reported cfg b.
Proof. unfold reported. destruct (TEST_MODE cfg); lia. Qed.

Lemma scan_patterns_capture cfg ctx now line patterns :
  scan_patterns cfg ctx now line patterns
  = match first_capture line patterns with
    | Some n => accept_frame cfg ctx now n
    | None => (ctx, None)
    end.
Proof.
  induction patterns as [|p rest IH]; simpl; [done|].
  destruct (Regex.search p line) as [group|]; [|done].
  destruct (PyStr.int group); done.
Qed.

#[local] Arguments scan_patterns : simpl never.

(** A frame number is taken only when it is above the recorded one. *)
Lemma accept_frame_spec cfg ctx now n :
  (n ≤ current_frame ctx ∧ accept_frame cfg ctx now n = (ctx, None))
  ∨ (current_frame ctx < n
     ∧ ∃ ctx' u, accept_frame cfg ctx now n = (ctx', Some u)
                 ∧ current_frame ctx' = n
                 ∧ completed u = reported cfg n).
Proof.
  unfold accept_frame, reported.
  destruct (Z.gtb_spec n (current_frame ctx)); [right|left].
  - split; [lia|]. eexists _, _. split; [reflexivity|].
    split; [reflexivity|]. by destruct (TEST_MODE cfg).
  - split; [lia|done].
Qed.

Lemma scan_patterns_spec cfg ctx now line :
  let r := scan_patterns cfg ctx now line frame_patterns in
  match r.2 with
  | None => r.1 = ctx
  | Some u =>
      ∃ n, first_capture line frame_patterns = Some n
           ∧ current_frame ctx < n
           ∧ current_frame r.1 = n
           ∧ completed u = reported cfg n
  end.
Proof.
  intros r. unfold r. rewrite scan_patterns_capture.
  destruct (first_capture line frame_patterns) as [n|]; [|done].
  destruct (accept_frame_spec cfg ctx now n)
    as [[_ ->]|(Hlt & ctx' & u & -> & Hcf & Hu)]; simpl; eauto.
Qed.

Lemma detect_start_current_frame ctx line :
  current_frame (detect_start ctx line) = current_frame ctx.
Proof. unfold detect_start. by case_match. Qed.

(** Along any stream the frame index only grows, and every published
    value is at least the value of the index the stream started from. *)
Lemma monitor_lines_invariant cfg lines : ∀ ctx,
  let r := monitor_lines cfg ctx lines in
  current_frame ctx ≤ current_frame r.1
  ∧ Forall (λ c, reported cfg (current_frame ctx) ≤ c) (completed <$> r.2)
  ∧ StronglySorted Z.le (completed <$> r.2).
Proof.
  induction lines as [|l rest IH]; intros ctx; simpl.
  - repeat split; [lia|constructor..].
  - destruct (PyStr.is_empty (PyStr.strip (text l))); [apply IH|].
    destruct (exited l); simpl; [repeat split; [lia|constructor..]|].
    pose proof (scan_patterns_spec cfg (detect_start ctx (PyStr.strip (text l)))
                  (read_time l) (PyStr.strip (text l))) as Hscan.
    simpl in Hscan.
    destruct (scan_patterns cfg (detect_start ctx (PyStr.strip (text l)))
                (read_time l) (PyStr.strip (text l)) frame_patterns)
      as [ctx2 update].
    specialize (IH ctx2). simpl in IH.
    destruct (monitor_lines cfg ctx2 rest) as [ctx3 updates].
    simpl in *. destruct IH as (Hle & Hall & Hsorted).
    rewrite detect_start_current_frame in Hscan.
    destruct update as [u|]; simpl in *.
    + destruct Hscan as (n & _ & Hlt & Hcf & Hu).
      assert (reported cfg (current_frame ctx) ≤ reported cfg (current_frame ctx2))
        by (apply reported_mono; lia).
      repeat split.
      * lia.
      * constructor; [rewrite Hu, <- Hcf; done|].
        eapply Forall_impl; [exact Hall|]. simpl. intros; lia.
      * constructor; [done|]. rewrite Hu, <- Hcf. done.
    + subst ctx2. rewrite detect_start_current_frame in *. done.
Qed.

(** C3.  A captured frame number is accepted only when it is strictly
    greater than the recorded frame index: the index and the published
    [completed] values never decrease along any sequence of lines, and a
    line whose frame number is not above the index (out of order or
    repeated) changes nothing and publishes nothing. *)
Theorem monitor_frame_index_monotonic cfg ctx lines :
  let r := monitor_lines cfg ctx lines in
  current_frame ctx ≤ current_frame r.1
  ∧ StronglySorted Z.le (completed <$> r.2)
  ∧ StronglySorted Z.le (completed <$> (monitor_progress cfg ctx lines).2)
  ∧ (∀ now line n,
       first_capture line frame_patterns = Some n →
       n ≤ current_frame ctx →
       scan_patterns cfg ctx now line frame_patterns = (ctx, None))
  ∧ (∀ now line ctx' u,
       scan_patterns cfg ctx now line frame_patterns = (ctx', Some u) →
       ∃ n, first_capture line frame_patterns = Some n
            ∧ current_frame ctx < n
            ∧ current_frame ctx' = n
            ∧ completed u = reported cfg n).
Proof.
  intros r. unfold r.
  split; [apply monitor_lines_invariant|].
  split; [apply monitor_lines_invariant|].
  split.
  { unfold monitor_progress.
    destruct (RICH_AVAILABLE cfg && BATCH_MODE cfg); simpl; [|constructor].
    apply monitor_lines_invariant. }
  split.
  - intros now line n Hcap Hle. rewrite scan_patterns_capture, Hcap.
    destruct (accept_frame_spec cfg ctx now n) as [[_ ->]|[Hlt _]]; [done|lia].
  - intros now line ctx' u Hscan.
    pose proof (scan_patterns_spec cfg ctx now line) as Hspec.
    simpl in Hspec. rewrite Hscan in Hspec. exact Hspec.
Qed.

(** [frame=50] after [frame=100]: nothing is published. *)
Lemma monitor_frame_index_monotonic_witness :
  let ctx := Context 100 0 false (Some 1) 100 in
  scan_patterns Sim.config ctx 2 "frame=50" frame_patterns = (ctx, None).
Proof.
  intros ctx.
  apply (proj1 (proj2 (proj2 (proj2
           (monitor_frame_index_monotonic Sim.config ctx [])))) 2 "frame=50" 50).
  - reflexivity.
  - simpl. discriminate.
Defined.

Example monitor_out_of_order_ex :
  (monitor_progress Sim.config (Context 0 0 false None 0)
     [Line "frame=  100 fps=25" 1 false; Line "frame=   50 fps=25" 2 false;
      Line "frame=  100 fps=25" 3 false; Line "Output 150 frames" 5 false]).2
  = [Update 100 200 Starting; Update 150 200 (Fps 50 4)].
Proof. vm_compute. reflexivity. Qed.

(** ** The watchdog *)

(** Draining the queue keeps the settings and records that output was seen. *)
Lemma drain_spec (times : list Z) : ∀ wd,
  let wd' := foldl (λ w now, reset_timer now w) wd times in
  timeout wd' = timeout wd
  ∧ check_interval wd' = check_interval wd
  ∧ (times = [] → wd' = wd)
  ∧ (output_detected wd' = true → output_detected wd = true ∨ times ≠ []).
Proof.
  induction times as [|now rest IH]; intros wd; simpl.
  - auto.
  - destruct (IH (reset_timer now wd)) as (Ht & Hc & _ & _).
    simpl in *. repeat split; auto; discriminate.
Qed.

(** When a check finds the process unhealthy. *)
Lemma check_process_health_false wd c wd' :
  check_process_health wd c = (false, wd') →
  process_exited c = true
  ∨ (process_exited c = false
     ∧ output_detected wd' = true
     ∧ timeout wd' < current_time c - last_output_time wd'
     ∧ (output_detected wd = true ∨ drained c ≠ [])).
Proof.
  unfold check_process_health.
  destruct (process_exited c); [auto|].
  destruct (drain_spec (drained c) wd) as (_ & _ & _ & Hseen).
  destruct (Z.gtb_spec
              (current_time c
               - last_output_time (foldl (λ w now, reset_timer now w) wd (drained c)))
              (timeout (foldl (λ w now, reset_timer now w) wd (drained c))));
    simpl; [|discriminate].
  destruct (output_detected (foldl (λ w now, reset_timer now w) wd (drained c)))
    eqn:Hout; [|discriminate].
  intros [= <-]. right. rewrite Hout. auto.
Qed.

(** A running process that has never produced output is healthy at any
    clock reading. *)
Lemma check_process_health_before_output wd c :
  output_detected wd = false → process_exited c = false → drained c = [] →
  check_process_health wd c = (true, wd).
Proof.
  intros Hout Hrun Hnone. unfold check_process_health.
  rewrite Hrun, Hnone. simpl. rewrite Hout, andb_false_r. reflexivity.
Qed.

Lemma monitor_fires wd checks : ∀ c wd',
  monitor wd checks = Some (c, wd') →
  process_exited c = true
  ∨ (output_detected wd' = true
     ∧ timeout wd' < current_time c - last_output_time wd'
     ∧ (output_detected wd = true ∨ Exists (λ c0, drained c0 ≠ []) checks)).
Proof.
  revert wd. induction checks as [|c0 rest IH]; intros wd c wd'; simpl; [done|].
  destruct (check_process_health wd c0) as [[] wd1] eqn:Hcheck.
  - intros Hrest. destruct (IH _ _ _ Hrest) as [|(Hout & Hsilent & Hseen)]; [auto|].
    right. repeat split; [done..|].
    destruct Hseen as [Hwd1|]; [|right; by constructor 2].
    unfold check_process_health in Hcheck.
    destruct (process_exited c0); [done|].
    destruct (drain_spec (drained c0) wd) as (_ & _ & _ & Hseen).
    case_match; simplify_eq. destruct (Hseen Hwd1); [auto|].
    right. by constructor 1.
  - intros [= <- <-].
    destruct (check_process_health_false _ _ _ Hcheck)
      as [|(_ & Hout & Hsilent & [|])]; [auto|right..].
    + auto.
    + repeat split; [done..|]. right. by constructor 1.
Qed.

Lemma silent_checks_cons start interval n :
  silent_checks start interval (S n)
  = Check start false [] :: silent_checks (start + interval) interval n.
Proof.
  unfold silent_checks. simpl. f_equal; [f_equal; lia|].
  rewrite <- fmap_S_seq, <- list_fmap_compose.
  apply list_fmap_ext. intros _ k _. simpl. f_equal. lia.
Qed.

(** After output, silence is noticed at the first check past the timeout. *)
Lemma monitor_silent wd n : ∀ start,
  output_detected wd = true →
  0 < check_interval wd →
  start ≤ last_output_time wd + timeout wd + check_interval wd →
  last_output_time wd + timeout wd
    < start + (Z.of_nat n - 1) * check_interval wd →
  ∃ c,
    monitor wd (silent_checks start (check_interval wd) n) = Some (c, wd)
    ∧ last_output_time wd + timeout wd < current_time c
    ∧ current_time c ≤ last_output_time wd + timeout wd + check_interval wd
    ∧ cleanup_terminates c = true.
Proof.
  induction n as [|n IH]; intros start Hout Hpos Hfirst Hlast.
  - exfalso. simpl in Hlast. lia.
  - rewrite silent_checks_cons. simpl.
    unfold check_process_health. simpl. rewrite Hout, andb_true_r.
    destruct (Z.gtb_spec (start - last_output_time wd) (timeout wd)).
    + eexists. split; [reflexivity|]. simpl. repeat split; lia.
    + apply IH; [done|done|lia|lia].
Qed.

(** C4 (amended).  For a process that is still running, the watchdog
    declares it frozen, and then terminates it, only if output has been
    observed and the silence since the last recorded output exceeds the
    timeout; a process found exited is also handed to the cleanup, which
    does not terminate it.  A running process that has produced no output
    is never declared frozen, however much time passes.  After output
    followed by silence, with checks one [check_interval] apart, the
    watchdog fires at a check later than the timeout by at most one
    [check_interval]. *)
Theorem watchdog_fires_only_after_output wd :
  (∀ checks c wd',
     monitor wd checks = Some (c, wd') →
     process_exited c = true
     ∨ (output_detected wd' = true
        ∧ timeout wd' < current_time c - last_output_time wd'
        ∧ (output_detected wd = true ∨ Exists (λ c0, drained c0 ≠ []) checks)))
  ∧ (∀ checks c wd',
       monitor wd checks = Some (c, wd') →
       cleanup_terminates c = true →
       output_detected wd' = true
       ∧ timeout wd' < current_time c - last_output_time wd')
  ∧ (∀ checks,
       output_detected wd = false →
       Forall (λ c, process_exited c = false ∧ drained c = []) checks →
       monitor wd checks = None)
  ∧ (∀ start n,
       output_detected wd = true →
       0 < check_interval wd →
       start ≤ last_output_time wd + timeout wd + check_interval wd →
       last_output_time wd + timeout wd
         < start + (Z.of_nat n - 1) * check_interval wd →
       ∃ c,
         monitor wd (silent_checks start (check_interval wd) n) = Some (c, wd)
         ∧ last_output_time wd + timeout wd < current_time c
         ∧ current_time c ≤ last_output_time wd + timeout wd + check_interval wd
         ∧ cleanup_terminates c = true).
Proof.
  split; [intros; by eapply monitor_fires|].
  split.
  { intros checks c wd' Hfire Hterm.
    destruct (monitor_fires _ _ _ _ Hfire) as [Hgone|(? & ? & _)]; [|done].
    unfold cleanup_terminates in Hterm. rewrite Hgone in Hterm. done. }
  split.
  - intros checks Hout Hquiet.
    induction Hquiet as [|c rest [Hrun Hnone] _ IH]; simpl; [done|].
    by rewrite check_process_health_before_output.
  - intros. by apply monitor_silent.
Qed.

(** Output recorded at time 5, timeout 30, checks every second from time
    6 on: the watchdog fires at time 36. *)
Lemma watchdog_fires_only_after_output_witness :
  let wd := reset_timer 5 (new_watchdog 30 1 0) in
  ∃ c, monitor wd (silent_checks 6 1 40) = Some (c, wd)
       ∧ 35 < current_time c ∧ current_time c ≤ 36
       ∧ cleanup_terminates c = true.
Proof.
  intros wd.
  apply (proj2 (proj2 (proj2 (watchdog_fires_only_after_output wd))) 6 40%nat);
    vm_compute; congruence.
Defined.

(** C4 as stated fails: a process that exits before it has written
    anything is declared frozen at the next check, with no output ever
    observed and no timeout elapsed. *)
Lemma watchdog_fires_without_output :
  let wd := new_watchdog 30 1 0 in
  monitor wd [Check 1 true []] = Some (Check 1 true [], wd)
  ∧ output_detected wd = false
  ∧ ¬ (timeout wd < 1 - last_output_time wd).
Proof. vm_compute. split; [reflexivity|]. split; [reflexivity|]. intros [=]. Qed.

(** ** Paths and the rewrap planner *)

Section PathFacts.
Import PyStr PosixPath.

Lemma app_cons c (a b : string) : String c a +:+ b = String c (a +:+ b).
Proof. reflexivity. Qed.

Lemma app_empty_l (b : string) : EmptyString +:+ b = b.
Proof. reflexivity. Qed.

Lemma app_empty_r (a : string) : a +:+ EmptyString = a.
Proof. induction a as [|x a IH]; [done|]. by rewrite app_cons, IH. Qed.

Lemma app_has_char c (a b : string) :
  has_char c (a +:+ b) = has_char c a || has_char c b.
Proof.
  induction a as [|x a IH]; [done|].
  rewrite app_cons. simpl. by rewrite IH, orb_assoc.
Qed.

Lemma app_inv_head (a b c : string) : a +:+ b = a +:+ c → b = c.
Proof. induction a; [done|]. rewrite !app_cons. intros [= ?]. auto. Qed.

Lemma app_assoc' (a b c : string) : (a +:+ b) +:+ c = a +:+ (b +:+ c).
Proof. induction a; [done|]. rewrite !app_cons. by f_equal. Qed.

Lemma basename_no_sep p : has_char "/" (basename p) = false.
Proof.
  induction p as [|c r IH]; [done|].
  cbn [basename]. destruct (has_char "/" (String c r)) eqn:Hs; done.
Qed.

Lemma basename_id x : has_char "/" x = false → basename x = x.
Proof. destruct x; simpl; [done|]. by intros ->. Qed.

Lemma head_no_sep x : has_char "/" x = false → head x = EmptyString.
Proof. destruct x; simpl; [done|]. by intros ->. Qed.

Lemma basename_after_sep p x :
  has_char "/" x = false → basename (p +:+ String "/" x) = x.
Proof.
  intros Hx. induction p as [|c p IH].
  - rewrite app_empty_l. cbn [basename]. simpl. by apply basename_id.
  - rewrite app_cons. cbn [basename].
    replace (has_char "/" (String c (p +:+ String "/" x))) with true; [done|].
    symmetry. cbn [has_char]. rewrite app_has_char. simpl.
    by rewrite !orb_true_r.
Qed.

Lemma endswith_sep_inv a : endswith_sep a = true → ∃ a', a = a' +:+ "/".
Proof.
  induction a as [|c r IH]; [done|]. simpl.
  destruct r as [|c' r'].
  - unfold eqb_char. intros ->%Ascii.eqb_eq. by exists EmptyString.
  - intros [a' ->]%IH. by exists (String c a').
Qed.

(** Joining a directory and a plain file name, the file name is the base
    name of the result. *)
Lemma basename_join dir x :
  has_char "/" x = false → basename (join dir x) = x.
Proof.
  intros Hx. unfold join.
  assert (startswith x "/" = false) as ->.
  { destruct x as [|c x]; [done|]. unfold startswith. simpl in *.
    apply orb_false_elim in Hx as [Hc _].
    unfold eqb_char in *. rewrite Ascii.eqb_sym, Hc. done. }
  destruct (is_empty dir) eqn:Hempty; simpl.
  - destruct dir; [|done]. rewrite app_empty_l. by apply basename_id.
  - destruct (endswith_sep dir) eqn:Hend.
    + apply endswith_sep_inv in Hend as [a' ->].
      rewrite app_assoc', app_cons, app_empty_l. by apply basename_after_sep.
    + by apply basename_after_sep.
Qed.

Lemma split_last_dot_spec s a b :
  split_last_dot s = Some (a, b) → s = a +:+ b ∧ ∃ b', b = String "." b'.
Proof.
  revert a b. induction s as [|c r IH]; intros a b; simpl; [done|].
  destruct (split_last_dot r) as [[a' b']|].
  - intros [= <- <-]. destruct (IH _ _ eq_refl) as [-> ?]. done.
  - destruct (eqb_char c ".") eqn:Hc; [|done].
    intros [= <- <-]. unfold eqb_char in Hc. apply Ascii.eqb_eq in Hc as ->.
    eauto.
Qed.

(** A component is its root followed by its extension; the extension is
    empty or starts with a dot. *)
Lemma splitext_component_spec s :
  s = (splitext_component s).1 +:+ (splitext_component s).2
  ∧ ((splitext_component s).2 = EmptyString ∨ ∃ e, (splitext_component s).2 = String "." e).
Proof.
  unfold splitext_component.
  destruct (split_last_dot s) as [[a b]|] eqn:Hs; simpl.
  - destruct (split_last_dot_spec _ _ _ Hs) as [-> ?].
    destruct (all_dots a); simpl; [|auto].
    split; [|auto]. by rewrite app_empty_r.
  - split; [|auto]. by rewrite app_empty_r.
Qed.

(** The root of a base name has no directory part. *)
Lemma splitext_basename p :
  (splitext (basename p)).1 = (splitext_component (basename p)).1.
Proof.
  unfold splitext.
  rewrite (basename_id (basename p)) by apply basename_no_sep.
  rewrite (head_no_sep (basename p)) by apply basename_no_sep.
  by destruct (splitext_component (basename p)).
Qed.

(** The intermediate artifact is never the source itself. *)
Lemma rewrap_output_file_fresh source_file output_directory :
  rewrap_output_file source_file output_directory ≠ source_file.
Proof.
  unfold rewrap_output_file. intros Heq.
  rewrite splitext_basename in Heq.
  destruct (splitext_component_spec (basename source_file)) as [Hsplit Hext].
  set (root := (splitext_component (basename source_file)).1) in *.
  set (ext := (splitext_component (basename source_file)).2) in *.
  assert (has_char "/" (root +:+ "_prores.mov") = false) as Hplain.
  { rewrite app_has_char.
    pose proof (basename_no_sep source_file) as Hb.
    rewrite Hsplit, app_has_char in Hb.
    apply orb_false_elim in Hb as [-> _]. done. }
  apply (f_equal basename) in Heq.
  rewrite (basename_join _ _ Hplain), Hsplit in Heq.
  apply app_inv_head in Heq.
  destruct Hext as [Hext|[e Hext]]; rewrite Hext in Heq; discriminate.
Qed.

End PathFacts.

(** Every branch of the planner answers yes. *)
Lemma needs_rewrapping_always source_file video_info :
  needs_rewrapping source_file video_info = true.
Proof. unfold needs_rewrapping. repeat case_match; reflexivity. Qed.

#[local] Arguments needs_rewrapping : simpl never.
#[local] Arguments has_info : simpl never.
#[local] Arguments interlace_decision : simpl never.
#[local] Arguments rewrap_command : simpl never.
#[local] Arguments rewrap_output_file : simpl never.
#[local] Arguments probe_command : simpl never.
#[local] Arguments parse_key_values : simpl never.

Section RewrapFacts.
Context {W : Type} `{World W}.

(** Every path through [rewrap_to_prores], spelled out. *)
Lemma rewrap_to_prores_run source_file output_directory (w : W) :
  rewrap_to_prores source_file output_directory w
  = match stat w source_file with
    | None => (Ret None, [Diag (SourceNotFound source_file)], w)
    | Some _ =>
        match run (probe_command source_file) w with
        | (Raise, w1) => (Raise, [Spawn (probe_command source_file)], w1)
        | (Ret result, w1) =>
            let output_file := rewrap_output_file source_file output_directory in
            let t1 := probe_events source_file result in
            match interlace_decision (probed_info result) with
            | Raise => (Raise, t1, w1)
            | Ret (is_interlaced, top_field_first) =>
                let command :=
                  Argv (rewrap_command source_file output_file
                                       is_interlaced top_field_first) in
                match run command w1 with
                | (Raise, w2) =>
                    (Ret None, t1 ++ [Spawn command; Diag UnexpectedError], w2)
                | (Ret encoded, w2) =>
                    if returncode encoded =? 0 then
                      match stat w2 output_file with
                      | None =>
                          (Ret None, t1 ++ [Spawn command; Diag OutputNotCreated], w2)
                      | Some st =>
                          if st_size st >? 1000000
                          then (Ret (Some output_file), t1 ++ [Spawn command], w2)
                          else (Ret None,
                                t1 ++ [Spawn command; Diag (OutputTooSmall (st_size st))],
                                w2)
                      end
                    else
                      (Ret None,
                       t1 ++ [Spawn command; Diag (EncodingFailed (stderr encoded))],
                       w2)
                end
            end
        end
    end.
Proof.
  unfold rewrap_to_prores, get_video_info, spawn, probe_events, probed_info.
  run_effects.
  destruct (stat w source_file); simpl; [|done].
  destruct (run (probe_command source_file) w) as [[result|] w1]; simpl; [|done].
  destruct (returncode result =? 0); simpl;
    [destruct (has_info _); simpl|change (has_info None) with false; simpl].
  all: rewrite ?needs_rewrapping_always; simpl.
  1,2: destruct (interlace_decision _) as [[i tff]|]; simpl; [|done].
  all: destruct (run _ w1) as [[encoded|] w2]; simpl; [|done].
  all: destruct (returncode encoded =? 0); simpl; [|done].
  all: destruct (stat w2 _) as [st|] eqn:Hst; simpl; [|done].
  all: rewrite ?Hst; destruct (st_size st >? 1000000); done.
Qed.

End RewrapFacts.

Section RewrapClaims.
Context {W : Type} `{World W}.

(** C5.  A source that is already ProRes in a QuickTime/MOV container is
    still rewrapped: [needs_rewrapping] is true for it, the encoder is run
    on it, and when the encoder succeeds [rewrap_to_prores] returns the
    intermediate path the encoder wrote, which is never the source path;
    no run of [rewrap_to_prores] returns the source path. *)
Theorem rewrap_never_short_circuits source_file output_directory (w : W)
    source result w1 info :
  stat w source_file = Some source →
  run (probe_command source_file) w = (Ret result, w1) →
  probed_info result = Some info →
  is_mov_prores info = true →
  let output_file := rewrap_output_file source_file output_directory in
  needs_rewrapping source_file (Some info) = true
  ∧ output_file ≠ source_file
  ∧ (∀ r t w', rewrap_to_prores source_file output_directory w = (r, t, w') →
               r ≠ Ret (Some source_file))
  ∧ (∀ is_interlaced top_field_first encoded w2 written,
       interlace_decision (Some info) = Ret (is_interlaced, top_field_first) →
       let command :=
         Argv (rewrap_command source_file output_file
                              is_interlaced top_field_first) in
       run command w1 = (Ret encoded, w2) →
       returncode encoded = 0 →
       stat w2 output_file = Some written →
       1000000 < st_size written →
       rewrap_to_prores source_file output_directory w
       = (Ret (Some output_file), probe_events source_file result ++ [Spawn command], w2)).
Proof.
  intros Hsrc Hprobe Hinfo Hmov output_file.
  split; [apply needs_rewrapping_always|].
  split; [apply rewrap_output_file_fresh|].
  split.
  - intros r t w'. rewrite rewrap_to_prores_run, Hsrc, Hprobe, Hinfo. simpl.
    pose proof (rewrap_output_file_fresh source_file output_directory) as Hfresh.
    intros Hrun ->. repeat case_match; simplify_eq.
  - intros i tff encoded w2 written Hdecision command Hrun Hzero Hout Hbig.
    rewrite rewrap_to_prores_run, Hsrc, Hprobe, Hinfo. simpl.
    rewrite Hdecision. fold output_file. fold command. rewrite Hrun, Hzero. simpl.
    rewrite Hout. replace (st_size written >? 1000000) with true by (symmetry; lia).
    reflexivity.
Qed.

(** C8 (amended).  [rewrap_to_prores] fails at once, spawning nothing,
    when the source is missing.  Otherwise, once the source has been
    probed, it returns [None] when the encoder cannot be run at all or
    exits non-zero (its captured stderr is then reported), and, after an
    encoder exit of zero, when the output is missing or smaller than
    1000000 bytes; it returns the output path when the encoder exits with
    zero and the output is larger than 1000000 bytes.  An exception of
    the probing step leaves the function as an exception. *)
Theorem rewrap_failure_modes source_file output_directory (w : W) :
  let output_file := rewrap_output_file source_file output_directory in
  (stat w source_file = None →
   rewrap_to_prores source_file output_directory w
   = (Ret None, [Diag (SourceNotFound source_file)], w))
  ∧ (∀ source w1,
       stat w source_file = Some source →
       run (probe_command source_file) w = (Raise, w1) →
       rewrap_to_prores source_file output_directory w
       = (Raise, [Spawn (probe_command source_file)], w1))
  ∧ (∀ source result w1,
       stat w source_file = Some source →
       run (probe_command source_file) w = (Ret result, w1) →
       interlace_decision (probed_info result) = Raise →
       rewrap_to_prores source_file output_directory w
       = (Raise, probe_events source_file result, w1))
  ∧ (∀ source result w1 is_interlaced top_field_first encoder w2,
       stat w source_file = Some source →
       run (probe_command source_file) w = (Ret result, w1) →
       interlace_decision (probed_info result)
       = Ret (is_interlaced, top_field_first) →
       let command :=
         Argv (rewrap_command source_file output_file
                              is_interlaced top_field_first) in
       run command w1 = (encoder, w2) →
       ∃ r t,
         rewrap_to_prores source_file output_directory w = (Ret r, t, w2)
         ∧ Spawn command ∈ t
         ∧ match encoder with
           | Raise => r = None
           | Ret encoded =>
               (returncode encoded ≠ 0 →
                r = None ∧ Diag (EncodingFailed (stderr encoded)) ∈ t)
               ∧ (returncode encoded = 0 →
                  match stat w2 output_file with
                  | None => r = None
                  | Some written =>
                      (st_size written < 1000000 → r = None)
                      ∧ (1000000 < st_size written → r = Some output_file)
                  end)
           end).
Proof.
  intros output_file.
  split; [intros Hsrc; by rewrite rewrap_to_prores_run, Hsrc|].
  split; [intros ?? Hsrc Hprobe; by rewrite rewrap_to_prores_run, Hsrc, Hprobe|].
  split.
  { intros ??? Hsrc Hprobe Hdecision.
    rewrite rewrap_to_prores_run, Hsrc, Hprobe. simpl. by rewrite Hdecision. }
  intros source result w1 i tff encoder w2 Hsrc Hprobe Hdecision command Hrun.
  rewrite rewrap_to_prores_run, Hsrc, Hprobe. simpl.
  rewrite Hdecision. fold output_file. fold command. rewrite Hrun.
  destruct encoder as [encoded|].
  - destruct (Z.eqb_spec (returncode encoded) 0) as [Hzero|Hfail].
    + destruct (stat w2 output_file) as [written|].
      * destruct (Z.gtb_spec (st_size written) 1000000).
        -- eexists _, _. split; [reflexivity|]. split; [set_solver|].
           split; [done|]. intros _. split; [lia|done].
        -- eexists _, _. split; [reflexivity|]. split; [set_solver|].
           split; [done|]. intros _. split; [done|lia].
      * eexists _, _. split; [reflexivity|]. split; [set_solver|]. done.
    + eexists _, _. split; [reflexivity|]. split; [set_solver|].
      split; [|done]. intros _. split; [done|set_solver].
  - eexists _, _. split; [reflexivity|]. split; [set_solver|]. done.
Qed.

End RewrapClaims.

(** The ProRes scenario: the source is rewrapped to a new file. *)
Lemma rewrap_never_short_circuits_witness :
  ∃ t w',
    rewrap_to_prores "in/master.mov" "out" Scenario.prores_source
    = (Ret (Some "out/master_prores.mov"), t, w')
    ∧ "out/master_prores.mov" ≠ "in/master.mov".
Proof.
  edestruct (rewrap_never_short_circuits "in/master.mov" "out"
               Scenario.prores_source) as (_ & Hfresh & _ & Hrun).
  - reflexivity.
  - reflexivity.
  - reflexivity.
  - vm_compute. reflexivity.
  - eexists _, _. split; [|exact Hfresh].
    eapply (Hrun true true).
    + vm_compute. reflexivity.
    + reflexivity.
    + reflexivity.
    + vm_compute. reflexivity.
    + vm_compute. reflexivity.
Defined.

(** The encoder exits with 1: the failure carries its stderr. *)
Lemma rewrap_failure_modes_witness :
  ∃ r t w',
    rewrap_to_prores "in/a.avi" "out" Scenario.encoder_fails = (Ret r, t, w')
    ∧ r = None
    ∧ Diag (EncodingFailed "Invalid pixel format") ∈ t.
Proof.
  pose proof (proj2 (proj2 (proj2
                (rewrap_failure_modes "in/a.avi" "out" Scenario.encoder_fails))))
    as Hmodes.
  cbv zeta in Hmodes.
  edestruct (Hmodes Scenario.source) as (r & t & Hrun & _ & Hcases).
  - reflexivity.
  - reflexivity.
  - vm_compute. reflexivity.
  - reflexivity.
  - exists r, t. eexists. split; [exact Hrun|].
    simpl in Hcases. apply Hcases. discriminate.
Defined.

(** C8 as stated fails: the source exists, the encoder cannot be spawned
    (so it never exits, with any status), an intermediate file of three
    million bytes is in place, and [rewrap_to_prores] still returns
    [None]. *)
Lemma rewrap_fails_without_encoder :
  let w := Scenario.no_encoder in
  let command := Argv (rewrap_command "in/a.avi" "out/a_prores.mov" true false) in
  stat w "in/a.avi" = Some Scenario.source
  ∧ run command w = (Raise, w)
  ∧ stat w "out/a_prores.mov" = Some (FileStat 5 3000000)
  ∧ rewrap_to_prores "in/a.avi" "out" w
    = (Ret None,
       [Spawn (probe_command "in/a.avi"); Spawn command; Diag UnexpectedError], w).
Proof. vm_compute. repeat split; reflexivity. Qed.

(** ** Interlacing *)



(** ** Artifact names *)

Lemma ffmpeg_cmd_overwrites output_file :
  ffmpeg_cmd output_file
  = ("ffmpeg -f rawvideo -pix_fmt yuv422p10le -s 3840x2160 -r 25/1 -i - "
     +:+ "-c:v prores_ks -profile:v 3 -pix_fmt yuv422p10le "
     +:+ "-color_range tv -color_primaries 12 -color_trc 11 -colorspace 12 "
     +:+ "-video_track_timescale 25 ") +:+ "-y " +:+ quoted output_file.
Proof. reflexivity. Qed.



(** In one batch: with skip-existing on, the second source is skipped
    because of the output of the first; with skip-existing off, the
    second job writes the same two files again. *)
Example same_stem_in_one_batch :
  let files := ["in/x/clip.avi"; "in/y/clip.mp4"] in
  job_statuses Sim.config "out" files Scenario.same_name
  = [JobSucceeded; JobSkipped]
  ∧ Sim.files (batch_summary Sim.config "out" files Scenario.same_name).2
    = <["out/clip.mov" := FileStat 101 3000000]>
        (<["out/clip_prores.mov" := FileStat 100 3000000]>
           (Sim.files Scenario.same_name))
  ∧ job_statuses Sim.config_no_skip "out" files Scenario.same_name
    = [JobSucceeded; JobSucceeded]
  ∧ Sim.files (batch_summary Sim.config_no_skip "out" files Scenario.same_name).2
    = <["out/clip.mov" := FileStat 103 3000000]>
        (<["out/clip_prores.mov" := FileStat 102 3000000]>
           (Sim.files Scenario.same_name)).
Proof. vm_compute. repeat split; reflexivity. Qed.

(** ** Frame counts *)

Section FrameCountFacts.
Import PyStr.

Lemma digit_facts c :
  is_digit c = true →
  is_space c = false ∧ c ≠ "-"%char ∧ c ≠ "+"%char ∧ eqb_char c "_" = false.
Proof. destruct c as [[] [] [] [] [] [] [] []]; done. Qed.

Lemma lstrip_digits s : all_digits s = true → lstrip s = s.
Proof.
  destruct s as [|c r]; [done|]. simpl.
  intros [Hc _]%andb_true_iff. by destruct (digit_facts c Hc) as [-> _].
Qed.

Lemma rstrip_digits s : all_digits s = true → rstrip s = s.
Proof.
  induction s as [|c r IH]; [done|]. simpl.
  intros [Hc Hr]%andb_true_iff. rewrite (IH Hr).
  by destruct (digit_facts c Hc) as [-> _].
Qed.

Lemma digitpart_from_digits s : ∀ prev,
  all_digits s = true → (prev = true ∨ s ≠ EmptyString) →
  digitpart_from prev s = Some s.
Proof.
  induction s as [|c r IH]; intros prev; simpl.
  - intros _ [->|]; done.
  - intros [Hc Hr]%andb_true_iff _. rewrite Hc.
    rewrite (IH true Hr) by auto. done.
Qed.

(** [int] reads a string of digits as its decimal value. *)
Lemma int_digits s : isdigit s = true → int s = Ret (digits_value s).
Proof.
  unfold isdigit. intros [Hne Hall]%andb_true_iff.
  unfold int, strip. rewrite (lstrip_digits s Hall), (rstrip_digits s Hall).
  destruct s as [|c r]; [done|].
  simpl in Hall. apply andb_true_iff in Hall as [Hc Hr].
  destruct (digit_facts c Hc) as (_ & Hminus & Hplus & _).
  assert (split_sign (String c r) = (false, String c r)) as ->.
  { unfold split_sign.
    destruct c as [[] [] [] [] [] [] [] []]; done. }
  unfold digitpart. rewrite digitpart_from_digits; [done| |by right].
  simpl. by rewrite Hc, Hr.
Qed.

End FrameCountFacts.



#[local] Arguments nb_frames_command : simpl never.
#[local] Arguments duration_command : simpl never.
#[local] Arguments frame_rate_command : simpl never.
#[local] Arguments PyStr.strip : simpl never.
#[local] Arguments PyStr.isdigit : simpl never.
#[local] Arguments PyStr.int : simpl never.
#[local] Arguments PyFloat.float : simpl never.
#[local] Arguments parse_frame_rate : simpl never.
#[local] Arguments size_estimate : simpl never.
#[local] Arguments PyFloat.trunc : simpl never.

Section FrameCount.
Context {W : Type} `{World W}.


End FrameCount.



(** ** The color-space check *)

#[local] Arguments color_command : simpl never.
#[local] Arguments color_tags_ok : simpl never.
#[local] Arguments get_output_filename : simpl never.

Section ColorSpace.
Context {W : Type} `{World W}.

(** Every path through [verify_color_space]; none of them raises. *)
Lemma verify_color_space_run output_file (w : W) :
  verify_color_space output_file w
  = match stat w output_file with
    | None => (Ret false, [], w)
    | Some _ =>
        match run (color_command output_file) w with
        | (Ret result, w1) =>
            (Ret ((returncode result =? 0)
                  && color_tags_ok (parse_key_values (stdout result))),
             [Spawn (color_command output_file)], w1)
        | (Raise, w1) => (Ret false, [Spawn (color_command output_file)], w1)
        end
    end.
Proof.
  unfold verify_color_space, spawn. run_effects.
  destruct (stat w output_file); simpl; [|done].
  destruct (run (color_command output_file) w) as [[result|] w1]; simpl; [|done].
  destruct (returncode result =? 0); done.
Qed.

(** C9.  [verify_color_space] passes only when the primaries, the
    transfer and the matrix tag each match their accepted aliases, and it
    is advisory: it never raises, and a job that reached a successful
    integrity verification returns success, and is counted as successful,
    whatever the color check answers. *)
Theorem color_check_is_advisory cfg output_dir input_file_path (w : W) :
  let output_file := get_output_filename input_file_path output_dir in
  (∀ w0, ∃ b t w', verify_color_space output_file w0 = (Ret b, t, w'))
  ∧ (∀ w0 t w',
       verify_color_space output_file w0 = (Ret true, t, w') →
       ∃ result,
         run (color_command output_file) w0 = (Ret result, w')
         ∧ returncode result = 0
         ∧ let color_info := parse_key_values (stdout result) in
           tag_ok color_info "color_primaries" expected_primaries = true
           ∧ tag_ok color_info "color_trc" expected_trc = true
           ∧ tag_ok color_info "colorspace" expected_colorspace = true)
  ∧ (∀ t0 w0 rewrapped t1 w1 frames t2 w2 t3 w3 t4 w4 passed t5 w5,
       should_skip_file cfg input_file_path output_file w = (Ret false, t0, w0) →
       rewrap_to_prores input_file_path output_dir w0
       = (Ret (Some rewrapped), t1, w1) →
       rewrapped ≠ EmptyString →
       get_frame_count rewrapped w1 = (Ret frames, t2, w2) →
       build_and_execute_command cfg rewrapped output_file frames w2
       = (Ret true, t3, w3) →
       verify_output_quality output_file w3 = (Ret true, t4, w4) →
       verify_color_space output_file w4 = (Ret passed, t5, w5) →
       process_single_file cfg output_dir input_file_path w
       = (Ret true, t0 ++ t1 ++ t2 ++ t3 ++ t4 ++ t5, w5)
       ∧ ∀ successful failed,
           process_files cfg output_dir [input_file_path] successful failed w
           = (Ret (S successful, failed),
              t0 ++ t1 ++ t2 ++ t3 ++ t4 ++ t5, w5)).
Proof.
  intros output_file. split; [|split].
  - intros w0. rewrite verify_color_space_run.
    repeat case_match; eauto.
  - intros w0 t w'. rewrite verify_color_space_run.
    destruct (stat w0 output_file); [|done].
    destruct (run (color_command output_file) w0) as [[result|] w1]; [|done].
    intros [= Hok <- <-]. apply andb_true_iff in Hok as [Hzero Htags].
    exists result. split; [done|]. split; [lia|].
    unfold color_tags_ok in Htags.
    apply andb_true_iff in Htags as [[??]%andb_true_iff ?]. done.
  - intros t0 w0 rewrapped t1 w1 frames t2 w2 t3 w3 t4 w4 passed t5 w5
           Hskip Hrewrap Hpath Hframes Hrun Hverify Hcolor.
    assert (process_single_file cfg output_dir input_file_path w
            = (Ret true, t0 ++ t1 ++ t2 ++ t3 ++ t4 ++ t5, w5)) as Hjob.
    { unfold process_single_file, catch. fold output_file.
      rewrite (bind_run _ _ _ _ _ _ Hskip). cbv beta iota.
      rewrite (bind_run _ _ _ _ _ _ Hrewrap).
      assert (no_path (Some rewrapped) = false) as ->
          by (by destruct rewrapped).
      cbv beta iota. simpl default.
      rewrite (bind_run _ _ _ _ _ _ Hframes).
      rewrite (bind_run _ _ _ _ _ _ Hrun). cbv beta iota.
      change (negb true) with false. cbv iota.
      rewrite (bind_run _ _ _ _ _ _ Hverify). cbv beta iota.
      rewrite (bind_run _ _ _ _ _ _ Hcolor). unfold ret. cbv beta iota.
      by rewrite app_nil_r. }
    split; [done|]. intros successful failed. simpl.
    rewrite (bind_run _ _ _ _ _ _ Hjob). unfold ret. by rewrite app_nil_r.
Qed.

End ColorSpace.

(** The output carries BT.709 tags: the color check fails, and the job
    still succeeds. *)
Lemma color_check_is_advisory_witness :
  ∃ t w',
    process_single_file Sim.config "out" "in/a.avi" Scenario.wrong_colors
    = (Ret true, t, w')
    ∧ (verify_color_space "out/a.mov" w').1.1 = Ret false.
Proof.
  pose proof (proj2 (proj2 (color_check_is_advisory
                Sim.config "out" "in/a.avi" Scenario.wrong_colors))) as Hadvisory.
  cbv zeta in Hadvisory.
  edestruct Hadvisory as [Hjob _].
  - vm_compute. reflexivity.
  - vm_compute. reflexivity.
  - discriminate.
  - vm_compute. reflexivity.
  - vm_compute. reflexivity.
  - vm_compute. reflexivity.
  - vm_compute. reflexivity.
  - eexists _, _. split; [exact Hjob|]. vm_compute. reflexivity.
Defined.

(** * Further properties of the code *)

(** ** Discovery *)

Section DiscoveryFacts.
Import PyStr.

Lemma flat_map_bind {A B} (f : A → list B) (l : list A) : flat_map f l = l ≫= f.
Proof. induction l as [|x l IH]; [done|]. simpl. by rewrite IH. Qed.

Lemma elem_of_flat_map {A B} (f : A → list B) (l : list A) (y : B) :
  y ∈ flat_map f l ↔ ∃ x, y ∈ f x ∧ x ∈ l.
Proof. rewrite flat_map_bind. apply list_elem_of_bind. Qed.

Lemma elem_of_glob1 dir entries ext p :
  p ∈ Glob.glob1 dir entries ext
  ↔ ∃ e, e ∈ entries
         ∧ Glob.ishidden (entry_name e) = false
         ∧ Glob.endswith (entry_name e) ext = true
         ∧ p = PosixPath.join dir (entry_name e).
Proof.
  unfold Glob.glob1. rewrite list_elem_of_fmap. split.
  - intros (e & -> & [Hvis He]%list_elem_of_filter).
    apply andb_true_iff in Hvis as [Hvis Hext].
    exists e. by rewrite <- (negb_involutive (Glob.ishidden _)), Hvis.
  - intros (e & He & Hvis & Hext & ->). exists e. split; [done|].
    apply list_elem_of_filter. by rewrite Hvis, Hext.
Qed.

Lemma endswith_refl s : Glob.endswith s s = true.
Proof. destruct s; cbn [Glob.endswith]; by rewrite bool_decide_eq_true_2. Qed.

Lemma endswith_app a b suffix :
  Glob.endswith b suffix = true → Glob.endswith (a +:+ b) suffix = true.
Proof.
  intros Hb. induction a as [|c a IH]; [done|].
  rewrite app_cons. cbn [Glob.endswith]. rewrite IH. apply orb_true_r.
Qed.

Lemma endswith_join dir name suffix :
  Glob.endswith name suffix = true →
  Glob.endswith (PosixPath.join dir name) suffix = true.
Proof.
  intros Hname. unfold PosixPath.join. repeat case_match; [done|..].
  - by apply endswith_app.
  - apply endswith_app. by apply (endswith_app "/").
Qed.

Lemma endswith_sep_snoc dir : PosixPath.endswith_sep (dir +:+ "/") = true.
Proof.
  induction dir as [|c dir IH]; [done|].
  rewrite app_cons. simpl. rewrite IH.
  destruct (dir +:+ "/") eqn:Hd; [|done].
  by destruct dir.
Qed.

(** Joining through the directory written with a trailing separator
    gives the same path. *)
Lemma join_join_empty dir name :
  PosixPath.join (PosixPath.join dir EmptyString) name = PosixPath.join dir name.
Proof.
  assert (PosixPath.join dir EmptyString
          = if is_empty dir || PosixPath.endswith_sep dir then dir
            else dir +:+ "/") as ->.
  { unfold PosixPath.join. change (startswith EmptyString "/") with false.
    cbv iota. destruct (is_empty dir || PosixPath.endswith_sep dir); [|done].
    apply app_empty_r. }
  destruct (is_empty dir || PosixPath.endswith_sep dir) eqn:Hd; [done|].
  unfold PosixPath.join. destruct (startswith name "/"); [done|].
  rewrite Hd, endswith_sep_snoc, orb_true_r. by rewrite app_assoc'.
Qed.

End DiscoveryFacts.

Section DiscoveryRoot.
Import PyStr.

Lemma head_after_sep p x :
  has_char "/" x = false → PosixPath.head (p +:+ String "/" x) = p +:+ "/".
Proof.
  intros Hx. induction p as [|c p IH].
  - rewrite !app_empty_l. cbn [PosixPath.head].
    change (has_char "/" (String "/" x)) with true. cbv iota.
    by rewrite (head_no_sep x Hx).
  - rewrite !app_cons. cbn [PosixPath.head].
    replace (has_char "/" (String c (p +:+ String "/" x))) with true.
    + by rewrite IH.
    + symmetry. cbn [has_char]. rewrite app_has_char.
      change (has_char "/" (String "/" x)) with true. by rewrite !orb_true_r.
Qed.

(** The directory part of a pattern does not depend on its last
    component. *)
Lemma head_join_plain dir tail :
  has_char "/" tail = false →
  PosixPath.head (PosixPath.join dir tail) = PosixPath.join dir EmptyString.
Proof.
  intros Hplain. unfold PosixPath.join.
  assert (startswith tail "/" = false) as ->.
  { destruct tail as [|c tail]; [done|]. unfold startswith. simpl in *.
    apply orb_false_elim in Hplain as [Hc _].
    unfold eqb_char in *. rewrite Ascii.eqb_sym, Hc. done. }
  change (startswith EmptyString "/") with false. cbv iota.
  destruct (is_empty dir) eqn:Hempty; simpl.
  - destruct dir; [|done]. rewrite !app_empty_l. by apply head_no_sep.
  - destruct (PosixPath.endswith_sep dir) eqn:Hend.
    + rewrite app_empty_r.
      apply endswith_sep_inv in Hend as [a' ->].
      rewrite app_assoc', app_cons, app_empty_l. by apply head_after_sep.
    + rewrite app_empty_r. by apply head_after_sep.
Qed.

Lemma dirname_join_pattern dir ext :
  has_char "/" ext = false →
  Glob.dirname (PosixPath.join dir ("*" +:+ ext))
  = Glob.dirname (PosixPath.join dir "*").
Proof.
  intros Hext. unfold Glob.dirname.
  rewrite !head_join_plain; [done|done|].
  rewrite app_cons, app_empty_l. simpl. by rewrite Hext.
Qed.

Lemma supported_extensions_plain ext :
  ext ∈ SUPPORTED_EXTENSIONS → has_char "/" ext = false.
Proof.
  unfold SUPPORTED_EXTENSIONS. rewrite !elem_of_cons, elem_of_nil.
  intros H. repeat (destruct H as [->|H]; [reflexivity|]). done.
Qed.

End DiscoveryRoot.

(** X1.  Without recursion, discovery returns, in sorted order, exactly
    the entries of the directory that are not hidden and whose name ends
    in a supported extension, each joined to the directory. *)
Theorem find_video_files_shallow directory_path entries :
  Glob.has_magic directory_path = false →
  let dir := Glob.dirname (PosixPath.join directory_path "*") in
  let found := find_video_files false directory_path entries in
  StronglySorted String.le found
  ∧ ∀ p, p ∈ found
         ↔ ∃ e ext, e ∈ entries
                    ∧ ext ∈ SUPPORTED_EXTENSIONS
                    ∧ Glob.ishidden (entry_name e) = false
                    ∧ Glob.endswith (entry_name e) ext = true
                    ∧ p = PosixPath.join dir (entry_name e).
Proof.
  intros _ dir found. split; [apply StronglySorted_merge_sort; apply _|].
  intros p. unfold found, find_video_files.
  rewrite merge_sort_Permutation, elem_of_flat_map. unfold Glob.glob.
  split.
  - intros (ext & Hp & Hext).
    rewrite (dirname_join_pattern _ _ (supported_extensions_plain _ Hext)) in Hp.
    apply elem_of_glob1 in Hp as (e & He & Hvis & Hends & ->).
    by exists e, ext.
  - intros (e & ext & He & Hext & Hvis & Hends & ->).
    exists ext. split; [|done].
    rewrite (dirname_join_pattern _ _ (supported_extensions_plain _ Hext)).
    apply elem_of_glob1. by exists e.
Qed.

(** X2.  In either mode every discovered path ends in one of the
    supported extensions, compared case-sensitively. *)
Theorem find_video_files_supported recursive directory_path entries p :
  Glob.has_magic directory_path = false →
  p ∈ find_video_files recursive directory_path entries →
  ∃ ext, ext ∈ SUPPORTED_EXTENSIONS ∧ Glob.endswith p ext = true.
Proof.
  intros _. unfold find_video_files.
  rewrite merge_sort_Permutation, elem_of_flat_map.
  intros (ext & Hp & Hext). exists ext. split; [done|].
  unfold Glob.glob in Hp. destruct recursive.
  - apply elem_of_flat_map in Hp as ([d es] & Hp & _).
    apply elem_of_glob1 in Hp as (e & _ & _ & Hends & ->).
    by apply endswith_join.
  - apply elem_of_glob1 in Hp as (e & _ & _ & Hends & ->).
    by apply endswith_join.
Qed.

(** X3.  What the search of the directory alone finds, the recursive
    search finds too. *)
Theorem find_video_files_recursive_superset directory_path entries p :
  Glob.has_magic directory_path = false →
  p ∈ find_video_files false directory_path entries →
  p ∈ find_video_files true directory_path entries.
Proof.
  intros _. unfold find_video_files.
  rewrite !merge_sort_Permutation, !elem_of_flat_map.
  intros (ext & Hp & Hext). exists ext. split; [|done].
  unfold Glob.glob in *. apply elem_of_flat_map.
  eexists. split; [|apply list_elem_of_here]. simpl.
  apply elem_of_glob1 in Hp as (e & He & Hvis & Hends & ->).
  apply elem_of_glob1. exists e. by rewrite join_join_empty.
Qed.

Section DiscoveryNoDup.
Import PyStr.

Lemma endswith_common s e1 e2 :
  Glob.endswith s e1 = true → Glob.endswith s e2 = true →
  Glob.endswith e1 e2 = true ∨ Glob.endswith e2 e1 = true.
Proof.
  induction s as [|c r IH]; cbn [Glob.endswith].
  - rewrite !orb_false_r. intros <-%bool_decide_eq_true <-%bool_decide_eq_true.
    by left.
  - intros [<-%bool_decide_eq_true|H1]%orb_true_iff H2.
    { left. exact H2. }
    apply orb_true_iff in H2 as [<-%bool_decide_eq_true|H2].
    { right. cbn [Glob.endswith]. rewrite H1. apply orb_true_r. }
    auto.
Qed.

(** No supported extension is the end of another one. *)
Lemma supported_extensions_apart e1 e2 :
  e1 ∈ SUPPORTED_EXTENSIONS → e2 ∈ SUPPORTED_EXTENSIONS →
  Glob.endswith e1 e2 = true → e1 = e2.
Proof.
  unfold SUPPORTED_EXTENSIONS. rewrite !elem_of_cons, !elem_of_nil.
  intros H1 H2.
  repeat (destruct H1 as [->|H1]); try done;
    repeat (destruct H2 as [->|H2]); try done; vm_compute; congruence.
Qed.

Lemma join_inj dir a b :
  startswith a "/" = false → startswith b "/" = false →
  PosixPath.join dir a = PosixPath.join dir b → a = b.
Proof.
  unfold PosixPath.join. intros -> ->.
  destruct (is_empty dir || PosixPath.endswith_sep dir).
  - apply String.app_inj.
  - intros H%String.app_inj. by apply (String.app_inj "/") in H.
Qed.

Lemma plain_not_absolute name :
  has_char "/" name = false → startswith name "/" = false.
Proof.
  destruct name as [|c name]; [done|]. unfold startswith. simpl.
  intros [Hc _]%orb_false_elim.
  unfold eqb_char in *. by rewrite Ascii.eqb_sym, Hc.
Qed.

Lemma same_name_same_entry (entries : list entry) e1 e2 :
  NoDup (entry_name <$> entries) →
  e1 ∈ entries → e2 ∈ entries → entry_name e1 = entry_name e2 → e1 = e2.
Proof.
  induction entries as [|e entries IH]; [by intros _ ?%elem_of_nil|].
  rewrite fmap_cons, NoDup_cons. intros [Hfresh Hrest].
  rewrite !elem_of_cons. intros [->|H1] [->|H2] Hname; [done|..].
  - exfalso. apply Hfresh. rewrite Hname. by apply list_elem_of_fmap_2.
  - exfalso. apply Hfresh. rewrite <- Hname. by apply list_elem_of_fmap_2.
  - by apply IH.
Qed.

End DiscoveryNoDup.

(** X4.  A directory lists each name once, so the search of the directory
    alone yields no path twice: no name ends in two of the supported
    extensions. *)
Theorem find_video_files_no_duplicates directory_path entries :
  Glob.has_magic directory_path = false →
  NoDup (entry_name <$> entries) →
  Forall (λ e, PyStr.has_char "/" (entry_name e) = false) entries →
  NoDup (find_video_files false directory_path entries).
Proof.
  intros _ Hnames Hplain. unfold find_video_files.
  rewrite merge_sort_Permutation, flat_map_bind.
  rewrite Forall_forall in Hplain.
  apply NoDup_bind.
  - intros ext1 ext2 p Hext1 Hext2 Hp1 Hp2. unfold Glob.glob in *.
    apply elem_of_glob1 in Hp1 as (e1 & He1 & _ & Hends1 & ->).
    apply elem_of_glob1 in Hp2 as (e2 & He2 & _ & Hends2 & Hsame).
    rewrite (dirname_join_pattern _ _ (supported_extensions_plain _ Hext1)),
            (dirname_join_pattern _ _ (supported_extensions_plain _ Hext2))
      in Hsame.
    apply join_inj in Hsame; [|by apply plain_not_absolute, Hplain..].
    rewrite Hsame in Hends1.
    destruct (endswith_common _ _ _ Hends1 Hends2).
    + by apply supported_extensions_apart.
    + symmetry. by apply supported_extensions_apart.
  - intros ext _. unfold Glob.glob, Glob.glob1.
    apply NoDup_fmap_2_strong.
    + intros e1 e2 [_ He1]%list_elem_of_filter [_ He2]%list_elem_of_filter Hsame.
      apply join_inj in Hsame; [|by apply plain_not_absolute, Hplain..].
      by apply (same_name_same_entry entries).
    + apply NoDup_filter. by apply NoDup_fmap_1 in Hnames.
  - unfold SUPPORTED_EXTENSIONS. by apply (bool_decide_unpack _).
Qed.

Example find_video_files_ex :
  find_video_files false "in" Disk.inbox = ["in/a.mp4"; "in/b.avi"; "in/clips.mov"]
  ∧ find_video_files true "in/" Disk.inbox
    = ["in/a.mp4"; "in/b.avi"; "in/clips.mov"; "in/clips.mov/e.dv";
       "in/sub/deep/d.ts"; "in/sub/z.mkv"]
  ∧ find_video_files true EmptyString Disk.inbox
    = ["a.mp4"; "b.avi"; "clips.mov"; "clips.mov/e.dv"; "sub/deep/d.ts";
       "sub/z.mkv"].
Proof. vm_compute. repeat split; reflexivity. Qed.

Lemma find_video_files_shallow_witness :
  "in/b.avi" ∈ find_video_files false "in" Disk.inbox
  ∧ "in/c.AVI" ∉ find_video_files false "in" Disk.inbox.
Proof.
  destruct (find_video_files_shallow "in" Disk.inbox eq_refl) as [_ Hmem].
  split.
  - apply Hmem. exists (File "b.avi"), ".avi".
    repeat split; [apply list_elem_of_here|apply list_elem_of_here].
  - apply (bool_decide_unpack _). vm_compute. exact I.
Defined.

Lemma find_video_files_supported_witness :
  ∃ ext, ext ∈ SUPPORTED_EXTENSIONS ∧ Glob.endswith "in/sub/z.mkv" ext = true.
Proof.
  apply (find_video_files_supported true "in" Disk.inbox "in/sub/z.mkv" eq_refl).
  apply (bool_decide_unpack _). vm_compute. exact I.
Defined.

Lemma find_video_files_recursive_superset_witness :
  "in/b.avi" ∈ find_video_files true "in" Disk.inbox.
Proof.
  apply (find_video_files_recursive_superset "in" Disk.inbox "in/b.avi" eq_refl).
  apply (bool_decide_unpack _). vm_compute. exact I.
Defined.

Lemma find_video_files_no_duplicates_witness :
  NoDup (find_video_files false "in" Disk.inbox).
Proof.
  apply (find_video_files_no_duplicates "in" Disk.inbox eq_refl).
  - apply (bool_decide_unpack _). vm_compute. exact I.
  - repeat constructor.
Defined.

(** ** Jobs *)

Section EffectInversion.
Context {W : Type} `{World W}.

Lemma bind_inv {A B} (m : M A) (k : A → M B) (w w' : W) r t :
  bind m k w = (r, t, w') →
  (∃ a t1 w1 t2, m w = (Ret a, t1, w1) ∧ k a w1 = (r, t2, w') ∧ t = t1 ++ t2)
  ∨ (r = Raise ∧ m w = (Raise, t, w')).
Proof.
  unfold bind. destruct (m w) as [[[a|] t1] w1].
  - destruct (k a w1) as [[r2 t2] w2] eqn:Hk. intros [= <- <- <-].
    left. by exists a, t1, w1, t2.
  - intros [= <- <- <-]. by right.
Qed.

Lemma catch_inv {A} (m h : M A) (w w' : W) r t :
  catch m h w = (r, t, w') →
  (∃ a, r = Ret a ∧ m w = (Ret a, t, w'))
  ∨ (∃ t1 w1 t2, m w = (Raise, t1, w1) ∧ h w1 = (r, t2, w') ∧ t = t1 ++ t2).
Proof.
  unfold catch. destruct (m w) as [[[a|] t1] w1].
  - intros [= <- <- <-]. left. by exists a.
  - destruct (h w1) as [[r2 t2] w2] eqn:Hh. intros [= <- <- <-].
    right. by exists t1, w1, t2.
Qed.

Lemma ret_inv {A} (a : A) (w w' : W) r t :
  ret a w = (r, t, w') → r = Ret a ∧ t = [] ∧ w' = w.
Proof. by intros [= <- <- <-]. Qed.

End EffectInversion.

#[local] Arguments output_duration_command : simpl never.

Section JobFacts.
Context {W : Type} `{World W}.

(** Every path through [verify_output_quality]. *)
Lemma verify_output_quality_run output_file (w : W) :
  verify_output_quality output_file w
  = match stat w output_file with
    | None => (Ret false, [], w)
    | Some o =>
        if st_size o <? 1000000 then (Ret false, [], w)
        else
          match run (output_duration_command output_file) w with
          | (Ret result, w1) =>
              (Ret ((returncode result =? 0)
                    && negb (PyStr.is_empty (PyStr.strip (stdout result)))),
               [Spawn (output_duration_command output_file)], w1)
          | (Raise, w1) =>
              (Ret false, [Spawn (output_duration_command output_file)], w1)
          end
    end.
Proof.
  unfold verify_output_quality, spawn. run_effects.
  destruct (stat w output_file) as [o|] eqn:Ho; simpl; [|done].
  rewrite ?Ho. destruct (st_size o <? 1000000); simpl; [done|].
  destruct (run (output_duration_command output_file) w) as [[result|] w1];
    simpl; [|done].
  destruct (returncode result =? 0); simpl; [|done].
  destruct (PyStr.is_empty (PyStr.strip (stdout result))); simpl; [done|].
  destruct (bool_decide _); simpl; [done|].
  destruct (PyFloat.float _); done.
Qed.

(** The events of the rewrap stage are probes, the encoder and
    diagnostics: it never launches the processing pipeline. *)
Lemma rewrap_never_launches source_file output_directory (w w' : W) r t :
  rewrap_to_prores source_file output_directory w = (r, t, w') →
  Forall (λ e, ∀ line, e ≠ Launch line) t.
Proof.
  rewrite rewrap_to_prores_run. unfold probe_events.
  intros Hrun.
  repeat case_match; simplify_eq;
    rewrite ?Forall_app, ?Forall_cons, ?Forall_nil;
    repeat split; done.
Qed.


End JobFacts.

Section JobClaims.
Context {W : Type} `{World W}.


(** X7.  A job whose source file does not exist fails without spawning a
    probe, an encoder or the pipeline, and leaves the world as it is. *)
Theorem job_with_missing_source_fails cfg output_dir file (w : W) :
  stat w file = None →
  ∃ t, process_single_file cfg output_dir file w = (Ret false, t, w)
       ∧ (t = [] ∨ t = [Diag (SourceNotFound file)]).
Proof.
  intros Hmissing. unfold process_single_file, catch.
  destruct (should_skip_file_pure cfg file
              (get_output_filename file output_dir) w) as [r Hskip].
  destruct r as [[]|].
  - apply should_skip_file_true_iff in Hskip as (_ & o & i & _ & Hi & _).
    congruence.
  - rewrite (bind_run _ _ _ _ _ _ Hskip). cbv beta iota.
    assert (rewrap_to_prores file output_dir w
            = (Ret None, [Diag (SourceNotFound file)], w)) as Hrewrap
        by (by rewrite rewrap_to_prores_run, Hmissing).
    rewrite (bind_run _ _ _ _ _ _ Hrewrap). simpl.
    eexists. split; [reflexivity|]. by right.
  - rewrite (bind_raise _ _ _ _ _ Hskip). simpl.
    eexists. split; [reflexivity|]. by left.
Qed.

(** X8.  When the rewrap stage fails, by returning [None] or by raising,
    the job fails right there: the frame count is not probed and the
    pipeline is not launched. *)
Theorem job_fails_when_rewrap_fails cfg output_dir file (w w0 w1 : W) t0 r t1 :
  should_skip_file cfg file (get_output_filename file output_dir) w
  = (Ret false, t0, w0) →
  rewrap_to_prores file output_dir w0 = (r, t1, w1) →
  r = Raise ∨ r = Ret None →
  process_single_file cfg output_dir file w = (Ret false, t0 ++ t1, w1)
  ∧ Forall (λ e, ∀ line, e ≠ Launch line) (t0 ++ t1).
Proof.
  intros Hskip Hrewrap Hfailed.
  destruct (should_skip_file_pure cfg file
              (get_output_filename file output_dir) w) as [r' Hpure].
  rewrite Hpure in Hskip. injection Hskip as -> <- <-.
  split; [|by eapply rewrap_never_launches].
  unfold process_single_file, catch.
  rewrite (bind_run _ _ _ _ _ _ Hpure). cbv beta iota.
  destruct Hfailed as [-> | ->].
  - rewrite (bind_raise _ _ _ _ _ Hrewrap). simpl. by rewrite app_nil_r.
  - rewrite (bind_run _ _ _ _ _ _ Hrewrap). simpl. by rewrite app_nil_r.
Qed.

Lemma verify_output_quality_true output_file (w : W) t w' :
  verify_output_quality output_file w = (Ret true, t, w')
  ↔ ∃ o result,
      stat w output_file = Some o
      ∧ 1000000 ≤ st_size o
      ∧ run (output_duration_command output_file) w = (Ret result, w')
      ∧ returncode result = 0
      ∧ PyStr.strip (stdout result) ≠ EmptyString
      ∧ t = [Spawn (output_duration_command output_file)].
Proof.
  rewrite verify_output_quality_run.
  destruct (stat w output_file) as [o|].
  2: { split; [done|]. by intros (? & ? & ? & _). }
  destruct (Z.ltb_spec (st_size o) 1000000).
  { split; [done|]. intros (? & ? & ? & ? & _). simplify_eq. lia. }
  destruct (run (output_duration_command output_file) w) as [[result|] w1].
  2: { split; [done|]. by intros (? & ? & _ & _ & ? & _). }
  split.
  - intros [= Hok <- <-]. apply andb_true_iff in Hok as [Hzero Hsome].
    exists o, result. repeat split; [done|lia|].
    by destruct (PyStr.strip (stdout result)).
  - intros (? & ? & ? & _ & ? & Hzero & Hsome & ->). simplify_eq.
    rewrite Hzero. simpl.
    by destruct (PyStr.strip (stdout _)).
Qed.

(** X9.  [verify_output_quality] never raises, and it passes exactly when
    the output exists, is at least 1000000 bytes long and the prober
    exits with zero and prints something: what it prints need not be a
    duration. *)
Theorem verify_output_quality_passes_iff output_file (w : W) :
  (∃ b t w', verify_output_quality output_file w = (Ret b, t, w'))
  ∧ ∀ t w',
      verify_output_quality output_file w = (Ret true, t, w')
      ↔ ∃ o result,
          stat w output_file = Some o
          ∧ 1000000 ≤ st_size o
          ∧ run (output_duration_command output_file) w = (Ret result, w')
          ∧ returncode result = 0
          ∧ PyStr.strip (stdout result) ≠ EmptyString
          ∧ t = [Spawn (output_duration_command output_file)].
Proof.
  split; [|intros; apply verify_output_quality_true].
  rewrite verify_output_quality_run. repeat case_match; eauto.
Qed.


(** X11.  [get_frame_count] raises only when, after the probing has
    failed, not even the size of the file can be read. *)
Theorem get_frame_count_raises_only_without_file input_file (w w' : W) t :
  get_frame_count input_file w = (Raise, t, w') →
  stat w' input_file = None.
Proof.
  unfold get_frame_count. intros Hrun.
  apply catch_inv in Hrun as [(? & [=] & _)|(t1 & w1 & t2 & _ & Hh & _)].
  apply bind_inv in Hh as [(size & ? & ? & ? & _ & Hr & _)|[_ Hsize]].
  - by apply ret_inv in Hr as [[=] _].
  - unfold getsize in Hsize.
    destruct (stat w1 input_file) eqn:Hstat; by simplify_eq.
Qed.

End JobClaims.

Lemma job_with_missing_source_fails_witness :
  ∃ t, process_single_file Sim.config "out" "in/gone.avi" Scenario.three_files
       = (Ret false, t, Scenario.three_files)
       ∧ (t = [] ∨ t = [Diag (SourceNotFound "in/gone.avi")]).
Proof.
  apply (job_with_missing_source_fails
           Sim.config "out" "in/gone.avi" Scenario.three_files).
  reflexivity.
Defined.

Lemma job_fails_when_rewrap_fails_witness :
  ∃ t w',
    process_single_file Sim.config "out" "in/a.avi" Scenario.encoder_fails
    = (Ret false, t, w')
    ∧ Forall (λ e, ∀ line, e ≠ Launch line) t.
Proof.
  eexists _, _.
  eapply (job_fails_when_rewrap_fails
            Sim.config "out" "in/a.avi" Scenario.encoder_fails).
  - vm_compute. reflexivity.
  - vm_compute. reflexivity.
  - by right.
Defined.

Lemma verify_output_quality_passes_iff_witness :
  verify_output_quality "out/b.mov" Scenario.three_files
  = (Ret true, [Spawn (output_duration_command "out/b.mov")],
     Scenario.three_files).
Proof.
  apply (proj2 (verify_output_quality_passes_iff "out/b.mov" Scenario.three_files)).
  eexists _, _. split; [reflexivity|]. split; [vm_compute; discriminate|].
  split; [reflexivity|]. split; [reflexivity|]. split; [|reflexivity].
  vm_compute. discriminate.
Defined.


Lemma get_frame_count_raises_only_without_file_witness :
  stat Scenario.unreadable "in/gone.avi" = None.
Proof.
  eapply (get_frame_count_raises_only_without_file
            "in/gone.avi" Scenario.unreadable).
  vm_compute. reflexivity.
Defined.

(** ** A source inside the output directory *)

Section InPlace.
Import PyStr.

Lemma split_last_dot_none s :
  has_char "." s = false → PosixPath.split_last_dot s = None.
Proof.
  induction s as [|c s IH]; [done|]. simpl.
  intros [Hc Hs]%orb_false_elim. by rewrite (IH Hs), Hc.
Qed.

Lemma split_last_dot_app a b :
  has_char "." b = false →
  PosixPath.split_last_dot (a +:+ String "." b) = Some (a, String "." b).
Proof.
  intros Hb. induction a as [|c a IH].
  - rewrite app_empty_l. cbn [PosixPath.split_last_dot].
    by rewrite (split_last_dot_none b Hb).
  - rewrite app_cons. cbn [PosixPath.split_last_dot]. by rewrite IH.
Qed.

End InPlace.

(** The skip rule never fires for a file compared with itself. *)
Lemma should_skip_file_same {W : Type} `{World W} cfg file (w : W) :
  should_skip_file cfg file file w = (Ret false, [], w).
Proof.
  unfold should_skip_file. run_effects.
  destruct (SKIP_EXISTING cfg); simpl; [|done].
  destruct (stat w file) as [s|] eqn:Hs; simpl; [|done].
  rewrite ?Hs. simpl.
  replace (st_mtime s >? st_mtime s) with false by (symmetry; lia).
  done.
Qed.

(** X12.  A [.mov] source that lies in the output directory is its own
    output path: the pipeline is told to write over its source, and the
    skip rule never spares it, since a file is not newer than itself. *)
Theorem mov_source_in_output_dir_is_its_own_output output_dir stem :
  PyStr.has_char "/" stem = false →
  PosixPath.all_dots stem = false →
  let source := PosixPath.join output_dir (stem +:+ ".mov") in
  get_output_filename source output_dir = source
  ∧ (∀ cfg input_file frame_count,
       ∃ before,
         pipeline_cmd cfg input_file (get_output_filename source output_dir)
                      frame_count
         = before +:+ "-y " +:+ quoted source)
  ∧ (∀ (W : Type) (HW : World W) cfg (w : W),
       should_skip_file cfg source (get_output_filename source output_dir) w
       = (Ret false, [], w)).
Proof.
  intros Hplain Hdots source.
  assert (get_output_filename source output_dir = source) as Hsame.
  { unfold get_output_filename, source.
    assert (PyStr.has_char "/" (stem +:+ ".mov") = false) as Hname
        by (by rewrite app_has_char, Hplain).
    rewrite splitext_basename, (basename_join _ _ Hname).
    unfold PosixPath.splitext_component.
    rewrite (split_last_dot_app stem "mov" eq_refl), Hdots. done. }
  split; [done|]. split.
  - intros cfg input_file frame_count. rewrite Hsame. unfold pipeline_cmd.
    rewrite ffmpeg_cmd_overwrites. eexists.
    rewrite <- !app_assoc'. reflexivity.
  - intros W HW cfg w. rewrite Hsame. apply should_skip_file_same.
Qed.

Lemma mov_source_in_output_dir_is_its_own_output_witness :
  get_output_filename "out/clip.mov" "out" = "out/clip.mov".
Proof.
  apply (mov_source_in_output_dir_is_its_own_output "out" "clip"); reflexivity.
Defined.

(** ** Frame rates *)

Section FrameRate.
Import PyStr.




End FrameRate.



(** ** The frame patterns *)

Section PatternFacts.
Import PyStr.







End PatternFacts.



Section PatternMatching.
Import PyStr.

Lemma search_here p s g :
  Regex.match_here p EmptyString s = Some g → Regex.search p s = Some g.
Proof. intros Hm. destruct s; simpl; by rewrite Hm. Qed.

Lemma match_here_literal lit : ∀ kw p g s,
  lower kw = lower lit →
  Regex.match_here (Regex.literal lit ++ p) g (kw +:+ s) = Regex.match_here p g s.
Proof.
  induction lit as [|c lit IH]; intros [|a kw] p g s; try done.
  simpl lower. intros [= Hc Hrest].
  rewrite app_cons. cbn [Regex.literal app Regex.match_here].
  rewrite Hc. unfold eqb_char at 1. rewrite Ascii.eqb_refl. by apply IH.
Qed.

Lemma star_space_greedy k sp tail g :
  all_spaces sp = true →
  (∀ c r, tail = String c r → is_space c = false) →
  k tail = Some g →
  Regex.star_space k (sp +:+ tail) = Some g.
Proof.
  intros Hsp Htail Hk. induction sp as [|c sp IH].
  - rewrite app_empty_l. destruct tail as [|c r]; [done|].
    simpl. by rewrite (Htail c r eq_refl).
  - simpl in Hsp. apply andb_true_iff in Hsp as [Hc Hsp].
    rewrite app_cons. simpl. by rewrite Hc, (IH Hsp).
Qed.

Lemma plus_digits_stops rest k :
  no_digit_ahead rest = true → Regex.plus_digits k rest = None.
Proof.
  destruct rest as [|c r]; [done|]. simpl.
  intros Hc%negb_true_iff. by rewrite Hc.
Qed.

Lemma plus_digits_greedy ds : ∀ k rest g,
  isdigit ds = true → no_digit_ahead rest = true →
  k ds rest = Some g →
  Regex.plus_digits k (ds +:+ rest) = Some g.
Proof.
  induction ds as [|c ds IH]; intros k rest g; [done|].
  unfold isdigit. simpl. intros [Hc Hds]%andb_true_iff Hrest Hk.
  rewrite ?app_cons. simpl. rewrite Hc.
  destruct ds as [|c' ds'].
  - rewrite app_empty_l, (plus_digits_stops rest _ Hrest). done.
  - by rewrite (IH (λ d r, k (String c d) r) rest g).
Qed.

Lemma digit_not_space c : is_digit c = true → is_space c = false.
Proof. intros Hc. by destruct (digit_facts c Hc). Qed.

End PatternMatching.

(** X15.  A line that starts with [frame=] in any case, followed by any
    white space and a run of digits that ends there or at a character
    that is not a digit, carries the value of these digits as its frame
    number. *)
Theorem frame_line_is_captured keyword spaces digits rest :
  PyStr.lower keyword = "frame=" →
  all_spaces spaces = true →
  PyStr.isdigit digits = true →
  no_digit_ahead rest = true →
  first_capture (keyword +:+ spaces +:+ digits +:+ rest) frame_patterns
  = Some (PyStr.digits_value digits).
Proof.
  intros Hkw Hsp Hds Hrest.
  unfold frame_patterns. cbn [first_capture].
  assert (Regex.search (Regex.literal "frame=" ++ [Regex.Spaces; Regex.Digits])
            (keyword +:+ spaces +:+ digits +:+ rest) = Some digits) as ->.
  { apply search_here. rewrite match_here_literal by done.
    cbn [Regex.match_here].
    apply star_space_greedy; [done| |].
    - intros c r Hc. destruct digits as [|d ds]; [done|].
      rewrite app_cons in Hc. injection Hc as <- _.
      apply digit_not_space.
      unfold PyStr.isdigit in Hds. simpl in Hds.
      by apply andb_true_iff in Hds as [? _].
    - by apply plus_digits_greedy. }
  by rewrite (int_digits _ Hds).
Qed.

Lemma frame_line_is_captured_witness :
  first_capture "FRAME=   120 fps= 25 q=-0.0" frame_patterns = Some 120.
Proof.
  apply (frame_line_is_captured "FRAME=" "   " "120" " fps= 25 q=-0.0");
    reflexivity.
Defined.

(** ** More on the progress monitor *)

Section MonitorFacts.
Variable cfg : Config.

Lemma accept_frame_none ctx now n ctx' :
  accept_frame cfg ctx now n = (ctx', None) → ctx' = ctx.
Proof. unfold accept_frame. case_match; congruence. Qed.

Lemma scan_patterns_none ctx now line ctx' :
  scan_patterns cfg ctx now line frame_patterns = (ctx', None) → ctx' = ctx.
Proof.
  rewrite scan_patterns_capture.
  destruct (first_capture line frame_patterns); [|congruence].
  apply accept_frame_none.
Qed.

Lemma scan_patterns_some ctx now line ctx' u :
  scan_patterns cfg ctx now line frame_patterns = (ctx', Some u) →
  ∃ n, accept_frame cfg ctx now n = (ctx', Some u).
Proof.
  rewrite scan_patterns_capture.
  destruct (first_capture line frame_patterns) as [n|]; [eauto|discriminate].
Qed.

(** An invariant of the context that the start detection and every
    accepted frame keep holds after the stream, and what every accepted
    frame publishes holds of all updates. *)
Lemma monitor_lines_preserves (P : context → Prop) (Q : progress_update → Prop) :
  (∀ ctx line, P ctx → P (detect_start ctx line)) →
  (∀ ctx now n ctx' u,
     P ctx → accept_frame cfg ctx now n = (ctx', Some u) → P ctx' ∧ Q u) →
  ∀ lines ctx,
    P ctx →
    P (monitor_lines cfg ctx lines).1 ∧ Forall Q (monitor_lines cfg ctx lines).2.
Proof.
  intros Hstart Haccept lines.
  induction lines as [|l rest IH]; intros ctx HP; simpl; [by split|].
  destruct (PyStr.is_empty (PyStr.strip (text l))); [by apply IH|].
  destruct (exited l); [by split|].
  destruct (scan_patterns cfg (detect_start ctx (PyStr.strip (text l)))
              (read_time l) (PyStr.strip (text l)) frame_patterns)
    as [ctx2 [u|]] eqn:Hscan.
  - apply scan_patterns_some in Hscan as [n Hacc].
    destruct (Haccept _ _ _ _ _ (Hstart _ _ HP) Hacc) as [HP2 HQ].
    destruct (IH ctx2 HP2) as [HP3 HQs].
    destruct (monitor_lines cfg ctx2 rest) as [ctx3 updates].
    split; [done|]. by constructor.
  - apply scan_patterns_none in Hscan as ->.
    destruct (IH _ (Hstart _ (PyStr.strip (text l)) HP)) as [HP3 HQs].
    by destruct (monitor_lines cfg _ rest) as [ctx3 updates].
Qed.

Lemma detect_start_fields ctx line :
  let ctx' := detect_start ctx line in
  current_frame ctx' = current_frame ctx
  ∧ frame_count ctx' = frame_count ctx
  ∧ last_frame_time ctx' = last_frame_time ctx
  ∧ last_frame_count ctx' = last_frame_count ctx
  ∧ (vapoursynth_started ctx = true → vapoursynth_started ctx' = true).
Proof. unfold detect_start. by case_match. Qed.

Lemma accept_frame_some ctx now n ctx' u :
  accept_frame cfg ctx now n = (ctx', Some u) →
  current_frame ctx < n
  ∧ ctx' = Context n (frame_count ctx) (vapoursynth_started ctx) (Some now) n
  ∧ completed u = reported cfg n
  ∧ total u = (if TEST_MODE cfg then TEST_FRAME_COUNT cfg
               else if frame_count ctx =? 0 then n + 1000 else frame_count ctx)
  ∧ speed u = match last_frame_time ctx with
              | None => Starting
              | Some last =>
                  if (now - last >? 0) && (n - last_frame_count ctx >? 0)
                  then Fps (n - last_frame_count ctx) (now - last)
                  else Calculating
              end.
Proof.
  unfold accept_frame, reported.
  destruct (Z.gtb_spec n (current_frame ctx)); [|discriminate].
  intros [= <- <-]. split; [lia|]. split; [done|].
  destruct (TEST_MODE cfg); simpl; [done|].
  by destruct (frame_count ctx =? 0).
Qed.

Lemma monitor_lines_no_starting lines ctx :
  last_frame_time ctx ≠ None →
  Forall (λ v, speed v ≠ Starting) (monitor_lines cfg ctx lines).2.
Proof.
  intros Hc.
  apply (monitor_lines_preserves (λ c, last_frame_time c ≠ None)); [| |done].
  - intros c line. by destruct (detect_start_fields c line) as (_ & _ & -> & _).
  - intros c now n c' v Hlast Hacc.
    apply accept_frame_some in Hacc as (_ & -> & _ & _ & ->).
    split; [done|]. destruct (last_frame_time c); [|done]. by case_match.
Qed.

Lemma monitor_lines_first_starting lines : ∀ ctx u rest,
  last_frame_time ctx = None →
  (monitor_lines cfg ctx lines).2 = u :: rest →
  speed u = Starting ∧ Forall (λ v, speed v ≠ Starting) rest.
Proof.
  induction lines as [|l lines IH]; intros ctx u us Hnone; simpl; [done|].
  destruct (PyStr.is_empty (PyStr.strip (text l))); [by apply IH|].
  destruct (exited l); [done|].
  destruct (detect_start_fields ctx (PyStr.strip (text l)))
    as (_ & _ & Htime & _).
  destruct (scan_patterns cfg (detect_start ctx (PyStr.strip (text l)))
              (read_time l) (PyStr.strip (text l)) frame_patterns)
    as [ctx2 [v|]] eqn:Hscan.
  - apply scan_patterns_some in Hscan as [n Hacc].
    apply accept_frame_some in Hacc as (_ & -> & _ & _ & Hspeed).
    rewrite Htime, Hnone in Hspeed.
    match goal with
    | |- context [monitor_lines cfg ?c lines] =>
        pose proof (monitor_lines_no_starting lines c) as Hall;
        destruct (monitor_lines cfg c lines) as [ctx3 updates]
    end.
    simpl. intros [= <- <-]. split; [done|]. by apply Hall.
  - apply scan_patterns_none in Hscan as ->.
    specialize (IH (detect_start ctx (PyStr.strip (text l))) u us).
    rewrite Htime in IH. specialize (IH Hnone).
    by destruct (monitor_lines cfg _ lines) as [ctx3 updates].
Qed.

End MonitorFacts.

(** X16.  Every update the monitor publishes carries a total that does
    not depend on the line it came from: in test mode the test frame
    count, with the completed count clipped to it; otherwise the frame
    count of the job when it is known, and when it is not (zero) the
    completed count plus 1000.  Outside test mode the completed count is
    positive. *)
Theorem monitor_progress_totals cfg ctx lines u :
  u ∈ (monitor_progress cfg ctx lines).2 →
  if TEST_MODE cfg
  then total u = TEST_FRAME_COUNT cfg ∧ completed u ≤ total u
  else 0 < completed u
       ∧ total u = (if frame_count ctx =? 0 then completed u + 1000
                    else frame_count ctx).
Proof.
  unfold monitor_progress.
  destruct (RICH_AVAILABLE cfg && BATCH_MODE cfg); [|by intros ?%elem_of_nil].
  set (ctx0 := Context 0 _ _ _ _).
  set (P := λ c : context, 0 ≤ current_frame c ∧ frame_count c = frame_count ctx).
  set (Q := λ u : progress_update,
         if TEST_MODE cfg
         then total u = TEST_FRAME_COUNT cfg ∧ completed u ≤ total u
         else 0 < completed u
              ∧ total u = (if frame_count ctx =? 0 then completed u + 1000
                           else frame_count ctx)).
  assert (Forall Q (monitor_lines cfg ctx0 lines).2) as Hall.
  { apply (monitor_lines_preserves cfg P Q); [| |by split].
    - intros c line [Hcur Hcount].
      destruct (detect_start_fields c line) as (Hc & Hf & _).
      unfold P. by rewrite Hc, Hf.
    - intros c now n c' v [Hcur Hcount] Hacc.
      apply accept_frame_some in Hacc as (Hlt & -> & Hdone & Htotal & _).
      split; [split; simpl; [lia|done]|].
      unfold Q, reported in *. rewrite Htotal, Hdone, Hcount.
      destruct (TEST_MODE cfg); [lia|]. split; [lia|done]. }
  intros Hin. by apply (proj1 (Forall_forall _ _) Hall).
Qed.

Lemma monitor_progress_totals_witness :
  let cfg := Build_Config true true false 100 true in
  let u := Update 120 1120 Starting in
  0 < completed u ∧ total u = completed u + 1000.
Proof.
  intros cfg u.
  apply (monitor_progress_totals cfg (Context 7 0 false None 0)
           [Line "frame=  120 fps= 25" 10 false] u).
  vm_compute. constructor.
Defined.

(** X17.  The speed column says [starting...] only for the first update
    after a context that has no frame time yet, never once a frame time
    is recorded; and a frames-per-second figure is only ever the quotient
    of a positive number of frames and a positive time. *)
Theorem monitor_progress_speed cfg ctx lines :
  let updates := (monitor_progress cfg ctx lines).2 in
  (last_frame_time ctx = None →
   ∀ u rest, updates = u :: rest →
             speed u = Starting ∧ Forall (λ v, speed v ≠ Starting) rest)
  ∧ (last_frame_time ctx ≠ None → Forall (λ v, speed v ≠ Starting) updates)
  ∧ Forall (λ v, ∀ frame_diff time_diff,
                 speed v = Fps frame_diff time_diff →
                 0 < frame_diff ∧ 0 < time_diff) updates.
Proof.
  intros updates. unfold updates, monitor_progress.
  destruct (RICH_AVAILABLE cfg && BATCH_MODE cfg);
    [|simpl; split; [done|split; [intros|]; constructor]].
  split; [|split].
  - intros Hnone u rest. by apply monitor_lines_first_starting.
  - intros Hsome. by apply monitor_lines_no_starting.
  - apply (monitor_lines_preserves cfg (λ _, True)); [done| |done].
    intros c now n c' v _ Hacc.
    apply accept_frame_some in Hacc as (_ & _ & _ & _ & ->).
    split; [done|]. intros fd td.
    destruct (last_frame_time c) as [last|]; [|done].
    destruct (Z.gtb_spec (now - last) 0); simpl; [|done].
    destruct (Z.gtb_spec (n - last_frame_count c) 0); [|done].
    intros [= <- <-]. lia.
Qed.

(** The first line of a fresh context starts, the second one is timed:
    25 frames in one unit of time. *)
Lemma monitor_progress_speed_witness :
  let cfg := Build_Config true true false 100 true in
  let updates :=
    (monitor_progress cfg (Context 0 0 false None 0)
       [Line "frame= 25" 1 false; Line "frame= 50" 2 false]).2 in
  updates = [Update 25 1025 Starting; Update 50 1050 (Fps 25 1)]
  ∧ speed (Update 25 1025 Starting) = Starting
  ∧ Forall (λ v, speed v ≠ Starting) [Update 50 1050 (Fps 25 1)].
Proof.
  intros cfg updates. split; [reflexivity|].
  apply (proj1 (monitor_progress_speed cfg (Context 0 0 false None 0)
                  [Line "frame= 25" 1 false; Line "frame= 50" 2 false]));
    reflexivity.
Defined.

(** X18.  Once a line that is not blank is read while the process is
    found exited, the monitor returns: that line and everything after it
    change nothing and publish nothing. *)
Theorem monitor_progress_stops_at_exit cfg ctx before l after :
  exited l = true →
  PyStr.strip (text l) ≠ EmptyString →
  monitor_progress cfg ctx (before ++ l :: after)
  = monitor_progress cfg ctx before.
Proof.
  intros Hgone Htext. unfold monitor_progress.
  destruct (RICH_AVAILABLE cfg && BATCH_MODE cfg); [|done].
  generalize (Context 0 (frame_count ctx) (vapoursynth_started ctx)
                (last_frame_time ctx) (last_frame_count ctx)).
  induction before as [|a before IH]; intros c; simpl.
  - rewrite Hgone. by destruct (PyStr.strip (text l)).
  - destruct (PyStr.is_empty (PyStr.strip (text a))); [by apply IH|].
    destruct (exited a); [done|].
    destruct (scan_patterns cfg _ (read_time a) _ frame_patterns) as [c2 up].
    by rewrite IH.
Qed.

Lemma monitor_progress_stops_at_exit_witness :
  let cfg := Build_Config true true false 100 true in
  let ctx := Context 0 0 false None 0 in
  monitor_progress cfg ctx
    [Line "frame= 25" 1 false; Line "frame= 50" 2 true; Line "frame= 75" 3 false]
  = monitor_progress cfg ctx [Line "frame= 25" 1 false].
Proof.
  intros cfg ctx.
  apply (monitor_progress_stops_at_exit cfg ctx
           [Line "frame= 25" 1 false] (Line "frame= 50" 2 true)
           [Line "frame= 75" 3 false]); [reflexivity|].
  vm_compute. discriminate.
Defined.

(** X19.  The monitor never touches the frame count of the job and never
    clears the mark that the frame server has started.  When it has
    published nothing, the frame index is 0 and the last frame time and
    count are as they were; when it has, the last frame count is the
    frame index, a frame time is recorded, and the last update reports
    that index. *)
Theorem monitor_progress_context cfg ctx lines :
  let ctx' := (monitor_progress cfg ctx lines).1 in
  frame_count ctx' = frame_count ctx
  ∧ (vapoursynth_started ctx = true → vapoursynth_started ctx' = true)
  ∧ match last (monitor_progress cfg ctx lines).2 with
    | None =>
        current_frame ctx' = 0
        ∧ last_frame_time ctx' = last_frame_time ctx
        ∧ last_frame_count ctx' = last_frame_count ctx
    | Some u =>
        last_frame_count ctx' = current_frame ctx'
        ∧ is_Some (last_frame_time ctx')
        ∧ completed u = reported cfg (current_frame ctx')
    end.
Proof.
  intros ctx'. unfold ctx', monitor_progress.
  destruct (RICH_AVAILABLE cfg && BATCH_MODE cfg); [|done].
  set (ctx0 := Context 0 _ _ _ _).
  destruct (monitor_lines_preserves cfg
              (λ c, frame_count c = frame_count ctx
                    ∧ (vapoursynth_started ctx = true →
                       vapoursynth_started c = true))
              (λ _, True)) with (lines := lines) (ctx := ctx0)
    as [[Hcount Hstarted] _].
  { intros c line [Hc Hs].
    destruct (detect_start_fields c line) as (_ & -> & _ & _ & Hkeep). auto. }
  { intros c now n c' v [Hc Hs] Hacc.
    apply accept_frame_some in Hacc as (_ & -> & _). by simpl. }
  { by split. }
  split; [done|]. split; [done|].
  assert (∀ c,
    let r := monitor_lines cfg c lines in
    match last r.2 with
    | None =>
        current_frame r.1 = current_frame c
        ∧ last_frame_time r.1 = last_frame_time c
        ∧ last_frame_count r.1 = last_frame_count c
    | Some u =>
        last_frame_count r.1 = current_frame r.1
        ∧ is_Some (last_frame_time r.1)
        ∧ completed u = reported cfg (current_frame r.1)
    end) as Hlast.
  { clear. induction lines as [|l lines IH]; intros c; simpl; [done|].
    destruct (PyStr.is_empty (PyStr.strip (text l))); [by apply IH|].
    destruct (exited l); [done|].
    destruct (detect_start_fields c (PyStr.strip (text l)))
      as (Hcur & _ & Htime & Hcnt & _).
    destruct (scan_patterns cfg (detect_start c (PyStr.strip (text l)))
                (read_time l) (PyStr.strip (text l)) frame_patterns)
      as [c2 [v|]] eqn:Hscan.
    - apply scan_patterns_some in Hscan as [n Hacc].
      apply accept_frame_some in Hacc as (_ & -> & Hdone & _).
      match goal with
      | |- context [monitor_lines cfg ?c2 lines] =>
          specialize (IH c2); destruct (monitor_lines cfg c2 lines) as [c3 us]
      end.
      simpl in *. destruct us as [|u' us']; simpl in *.
      + destruct IH as (-> & -> & ->). eauto.
      + destruct (last (u' :: us')) eqn:Hl; [exact IH|].
        by apply last_None in Hl.
    - apply scan_patterns_none in Hscan as ->.
      specialize (IH (detect_start c (PyStr.strip (text l)))).
      destruct (monitor_lines cfg _ lines) as [c3 us]. simpl in *.
      by rewrite Hcur, Htime, Hcnt in IH. }
  apply (Hlast ctx0).
Qed.

Lemma monitor_progress_context_witness :
  let cfg := Build_Config true true false 100 true in
  let ctx := Context 9 500 true None 0 in
  let ctx' := (monitor_progress cfg ctx [Line "frame= 25" 1 false]).1 in
  frame_count ctx' = 500 ∧ vapoursynth_started ctx' = true.
Proof.
  intros cfg ctx ctx'.
  destruct (monitor_progress_context cfg ctx [Line "frame= 25" 1 false])
    as (Hcount & Hstarted & _).
  split; [exact Hcount|apply Hstarted; reflexivity].
Defined.

(** ** More on the watchdog *)

Lemma drain_last (times : list Z) : ∀ wd now,
  last times = Some now →
  foldl (λ w t, reset_timer t w) wd times
  = Watchdog (timeout wd) (check_interval wd) now true.
Proof.
  induction times as [|t rest IH]; intros wd now; [done|].
  destruct rest as [|t' rest'].
  - intros [= ->]. done.
  - intros Hlast. simpl in *. by rewrite (IH (reset_timer t wd) now Hlast).
Qed.

(** X20.  A check that finds the process running and takes output off
    the queue finds it healthy, whatever the silence before, as long as
    the clock does not run backwards and the timeout is not negative; it
    leaves the time of the last item as the time of the last output.  So
    a process that has output waiting at every check is never declared
    frozen. *)
Theorem watchdog_output_keeps_alive wd :
  0 ≤ timeout wd →
  (∀ c now,
     process_exited c = false →
     last (drained c) = Some now →
     current_time c ≤ now →
     check_process_health wd c
     = (true, Watchdog (timeout wd) (check_interval wd) now true))
  ∧ (∀ checks,
       Forall (λ c, process_exited c = false
                    ∧ ∃ now, last (drained c) = Some now ∧ current_time c ≤ now)
              checks →
       monitor wd checks = None).
Proof.
  intros Htimeout.
  assert (∀ wd0 c now,
    0 ≤ timeout wd0 →
    process_exited c = false →
    last (drained c) = Some now →
    current_time c ≤ now →
    check_process_health wd0 c
    = (true, Watchdog (timeout wd0) (check_interval wd0) now true)) as Hcheck.
  { intros wd0 c now Hpos Hrun Hlast Hclock. unfold check_process_health.
    rewrite Hrun, (drain_last _ _ _ Hlast). simpl.
    destruct (Z.gtb_spec (current_time c - now) (timeout wd0)); [lia|done]. }
  split; [intros; by apply Hcheck|].
  intros checks Hall. revert wd Htimeout.
  induction Hall as [|c rest (Hrun & now & Hlast & Hclock) _ IH]; intros wd Hpos;
    simpl; [done|].
  rewrite (Hcheck wd c now Hpos Hrun Hlast Hclock). by apply IH.
Qed.

(** Silent for 995 units, then one item arrives at the check itself. *)
Lemma watchdog_output_keeps_alive_witness :
  check_process_health (Watchdog 30 1 5 true) (Check 1000 false [1000])
  = (true, Watchdog 30 1 1000 true).
Proof.
  destruct (watchdog_output_keeps_alive (Watchdog 30 1 5 true)) as [Hcheck _];
    [simpl; lia|].
  apply (Hcheck (Check 1000 false [1000]) 1000); [reflexivity|reflexivity|simpl; lia].
Defined.

(** ** The dictionary of a prober's output *)

Section KeyValueFacts.
Import PyStr.


Lemma split_first_has_char sep s :
  has_char sep s = true ↔ is_Some (split_first sep s).
Proof.
  induction s as [|c s IH]; simpl.
  - split; [done|by intros [? ?]].
  - destruct (eqb_char c sep); simpl; [by split; eauto|].
    rewrite IH. destruct (split_first sep s) as [[k v]|]; split; eauto;
      by intros [? ?].
Qed.

Lemma parse_key_values_fold text :
  parse_key_values text = foldl add_line ∅ (split "010" (strip text)).
Proof. reflexivity. Qed.




Lemma fold_empty lines : ∀ info,
  foldl add_line info lines = ∅
  ↔ info = ∅ ∧ Forall (λ l, has_char "=" l = false) lines.
Proof.
  induction lines as [|l rest IH]; intros info; simpl.
  - split; [by split|by intros []].
  - rewrite IH. unfold add_line at 1.
    destruct (has_char "=" l) eqn:Hl.
    + destruct (proj1 (split_first_has_char "=" l) Hl) as [[k v] ->].
      split.
      * intros [Hins _]. by apply insert_non_empty in Hins.
      * intros [_ Hall]. apply Forall_cons in Hall as [Hnone _]. congruence.
    + split.
      * intros [-> Hall]. split; [done|]. by constructor.
      * intros [-> Hall]. apply Forall_cons in Hall as [_ Hall]. by split.
Qed.

Lemma parse_key_values_empty text :
  parse_key_values text = ∅
  ↔ Forall (λ l, has_char "=" l = false) (split "010" (strip text)).
Proof.
  rewrite parse_key_values_fold, fold_empty. split; [by intros [_ ?]|by split].
Qed.

End KeyValueFacts.


(** A later [height] line replaces an earlier one. *)
Example parse_key_values_ex :
  let info :=
    parse_key_values (Sim.lines ["height=480"; "[STREAM]"; "height=576"]) in
  info !! "height" = Some "576" ∧ size info = 1%nat.
Proof. vm_compute. done. Qed.


Section ProbeFallback.
Context {W : Type} `{World W}.

(** X22.  When the prober exits with a non-zero status, or prints no line
    with [=] in it, the rewrap still goes on: the failure is reported,
    the source is taken to be interlaced with the top field first, and
    the encoder is run with the flags for that. *)
Theorem rewrap_without_probe_data source_file output_directory (w : W)
    source result w1 encoder w2 :
  stat w source_file = Some source →
  run (probe_command source_file) w = (Ret result, w1) →
  returncode result ≠ 0
  ∨ Forall (λ l, PyStr.has_char "=" l = false)
           (PyStr.split "010" (PyStr.strip (stdout result))) →
  let output_file := rewrap_output_file source_file output_directory in
  let command := Argv (rewrap_command source_file output_file true true) in
  run command w1 = (encoder, w2) →
  interlace_decision (probed_info result) = Ret (true, true)
  ∧ Diag CouldNotAnalyze ∈ probe_events source_file result
  ∧ ∃ r t, rewrap_to_prores source_file output_directory w
           = (Ret r, probe_events source_file result ++ Spawn command :: t, w2).
Proof.
  intros Hsource Hprobe Hnodata output_file command Hrun.
  assert (has_info (probed_info result) = false) as Hinfo.
  { unfold has_info, probed_info.
    destruct (Z.eqb_spec (returncode result) 0) as [Hzero|]; [|done].
    destruct Hnodata as [|Hlines]; [done|].
    apply parse_key_values_empty in Hlines. rewrite Hlines. done. }
  assert (interlace_decision (probed_info result) = Ret (true, true)) as Hdec.
  { unfold interlace_decision. rewrite Hinfo. by destruct (probed_info result). }
  split; [done|]. split.
  { unfold probe_events. rewrite Hinfo.
    rewrite !elem_of_app. right. right. apply list_elem_of_here. }
  rewrite rewrap_to_prores_run, Hsource, Hprobe. cbv zeta. rewrite Hdec.
  fold output_file. fold command. rewrite Hrun.
  destruct encoder as [encoded|]; [|by eexists _, _].
  destruct (returncode encoded =? 0); [|by eexists _, _].
  destruct (stat w2 output_file) as [st|]; [|by eexists _, _].
  destruct (st_size st >? 1000000); by eexists _, _.
Qed.

End ProbeFallback.

(** The prober fails on the source; the encoder is still run, with
    [-top 1]. *)
Lemma rewrap_without_probe_data_witness :
  let w := Scenario.unreadable in
  interlace_decision (probed_info (Completed 1 EmptyString "unreadable"))
  = Ret (true, true).
Proof.
  intros w.
  pose proof (rewrap_without_probe_data "in/tiny.avi" "out" w) as Hthm.
  edestruct Hthm as [Hdec _];
    [reflexivity|reflexivity|left; simpl; discriminate|reflexivity|exact Hdec].
Defined.

(** ** What [main] sets out to process *)

(** X5.  [main] never starts a batch with nothing to do: the list it
    goes on with is not empty, and is either what the directory scan
    found or the input path alone.  It gives up on the path as invalid
    exactly in batch mode on a path that is neither a directory nor a
    file, and for want of videos exactly in batch mode on a directory
    where none was found.  Outside batch mode any path that exists is
    processed as one file, a directory too. *)
Theorem plan_input_outcomes batch_mode input_path isdir isfile path_exists found :
  let plan := plan_input batch_mode input_path isdir isfile path_exists found in
  (∀ files, plan = ProcessFiles files →
            files ≠ [] ∧ (files = found ∨ files = [input_path]))
  ∧ (plan = ExitInvalidPath
     ↔ batch_mode = true ∧ isdir = false ∧ isfile = false)
  ∧ (plan = ExitNoFiles ↔ batch_mode = true ∧ isdir = true ∧ found = [])
  ∧ (batch_mode = false → path_exists = true →
     plan = ProcessFiles [input_path]).
Proof.
  intros plan. unfold plan, plan_input.
  destruct batch_mode, isdir, isfile, path_exists, found as [|file found];
    simpl; (repeat split); intros; destruct_and?; simplify_eq; auto.
Qed.

(** A directory given outside batch mode is handed on as a single file. *)
Lemma plan_input_outcomes_witness :
  plan_input false "in" true false true ["in/a.avi"] = ProcessFiles ["in"].
Proof.
  apply (proj2 (proj2 (proj2
           (plan_input_outcomes false "in" true false true ["in/a.avi"]))));
    reflexivity.
Defined.

(** ** The batch as a sequence of jobs *)

Section BatchComposition.
Context {W : Type} `{World W}.


End BatchComposition.
